(** * Random-search command surface of the Pixiv plugin

    A shallow embedding of [handlers/random_illust.py] (the seven
    [pixiv_random_*] command handlers) and of the life cycle code of
    [main.py] ([__init__], the command wrappers and [terminate]).

    The handlers are asynchronous generators that talk to three
    collaborators: the tag validator, the tag store ([utils/database.py])
    and the scheduling core ([utils/random_search.py]).  They are embedded
    as terms of a small generator monad whose operations are exactly the
    calls the Python code makes, so that "the handler does not call X" is a
    statement about the trace of a run.  The collaborators themselves are
    given as interpreters of those operations. *)

From stdpp Require Import gmap list.
From Stdlib Require Import ZArith.
From Stdlib Require Decimal Ascii String DecimalPos DecimalZ.
Import String.StringSyntax.
Delimit Scope string_scope with string.

Local Open Scope Z_scope.

(** ** Python values *)

Module Py.

(** A Python [str] is a sequence of Unicode code points. *)
Abbreviation str := (list N) (only parsing).

(** Source literals are written as UTF-8 text and decoded to code points. *)
Fixpoint utf8_decode (bs : list N) : str :=
  match bs with
  | [] => []
  | b0 :: r0 =>
    if (b0 <? 128)%N then b0 :: utf8_decode r0
    else if (b0 <? 224)%N then
      match r0 with
      | b1 :: r1 => (b0 mod 32 * 64 + b1 mod 64)%N :: utf8_decode r1
      | _ => []
      end
    else if (b0 <? 240)%N then
      match r0 with
      | b1 :: b2 :: r2 =>
        (b0 mod 16 * 4096 + b1 mod 64 * 64 + b2 mod 64)%N :: utf8_decode r2
      | _ => []
      end
    else
      match r0 with
      | b1 :: b2 :: b3 :: r3 =>
        (b0 mod 8 * 262144 + b1 mod 64 * 4096 + b2 mod 64 * 64 + b3 mod 64)%N
          :: utf8_decode r3
      | _ => []
      end
  end.

Definition text (s : String.string) : str :=
  utf8_decode (map Ascii.N_of_ascii (String.list_ascii_of_string s)).
Arguments text s%_string : simpl never.

(** What the interpreter and its Unicode database contribute for code
    points above ASCII, and the interpreter-wide limit on the length of a
    decimal string that [int] converts ([sys.set_int_max_str_digits];
    [0] switches the limit off). *)
Class Runtime := {
  unicode_digit : N → bool;          (* Numeric_Type is Digit or Decimal *)
  unicode_decimal : N → option N;    (* value of a decimal digit (Nd) *)
  unicode_space : N → bool;          (* whitespace in the sense of str.strip *)
  int_max_str_digits : nat;
}.

Inductive Exn := ValueError.

(** Truth value of a [str]: the empty string is false. *)
Definition truthy (s : str) : bool :=
  match s with [] => false | _ => true end.

(** [a or b], for [a] a string or [None] and [b] a string. *)
Definition or_ (a : option str) (b : str) : str :=
  match a with
  | Some s => if truthy s then s else b
  | None => b
  end.

(** [str(n)] and the [{n}] of an f-string, for an [int]. *)
Fixpoint uint_digits (d : Decimal.uint) : str :=
  match d with
  | Decimal.Nil => []
  | Decimal.D0 d => 48%N :: uint_digits d
  | Decimal.D1 d => 49%N :: uint_digits d
  | Decimal.D2 d => 50%N :: uint_digits d
  | Decimal.D3 d => 51%N :: uint_digits d
  | Decimal.D4 d => 52%N :: uint_digits d
  | Decimal.D5 d => 53%N :: uint_digits d
  | Decimal.D6 d => 54%N :: uint_digits d
  | Decimal.D7 d => 55%N :: uint_digits d
  | Decimal.D8 d => 56%N :: uint_digits d
  | Decimal.D9 d => 57%N :: uint_digits d
  end.

Definition format_int (z : Z) : str :=
  match Z.to_int z with
  | Decimal.Pos d => uint_digits d
  | Decimal.Neg d => 45%N :: uint_digits d
  end.

(** [sep.join(parts)] *)
Fixpoint join (sep : str) (parts : list str) : str :=
  match parts with
  | [] => []
  | [p] => p
  | p :: rest => p ++ sep ++ join sep rest
  end.

Section WithRuntime.
Context `{Runtime}.

Definition is_digit (c : N) : bool :=
  if (c <? 128)%N then (48 <=? c)%N && (c <=? 57)%N else unicode_digit c.

Definition decimal_value (c : N) : option N :=
  if (c <? 128)%N
  then (if (48 <=? c)%N && (c <=? 57)%N then Some (c - 48)%N else None)
  else unicode_decimal c.

Definition is_space (c : N) : bool :=
  if (c <? 128)%N
  then ((9 <=? c)%N && (c <=? 13)%N) || ((28 <=? c)%N && (c <=? 32)%N)
  else unicode_space c.

(** [s.isdigit()]: at least one character, and every character a digit. *)
Definition isdigit (s : str) : bool :=
  truthy s && forallb is_digit s.

(** [s.strip()] *)
Fixpoint lstrip (s : str) : str :=
  match s with
  | c :: r => if is_space c then lstrip r else s
  | [] => []
  end.

Definition strip (s : str) : str :=
  rev (lstrip (rev (lstrip s))).

(** Value of a run of decimal digits, most significant first. *)
Fixpoint decimal_digits (acc : Z) (s : str) : option Z :=
  match s with
  | [] => Some acc
  | c :: r =>
    match decimal_value c with
    | Some d => decimal_digits (10 * acc + Z.of_N d) r
    | None => None
    end
  end.

(** [int(s)] for a string on which [isdigit] holds, the only way the
    handlers call it: there is no sign, blank or underscore to skip, so
    the conversion fails exactly when a character is a digit without a
    decimal value (a superscript, say) or when the string is longer
    than the interpreter allows. *)
Definition int_ (s : str) : Exn + Z :=
  if bool_decide (640 < length s ∧ 0 < int_max_str_digits < length s)%nat
  then inl ValueError
  else match decimal_digits 0 s with
       | Some z => inr z
       | None => inl ValueError
       end.

End WithRuntime.

End Py.

Import Py.

(** ** What a handler sees of its collaborators *)

(** The event of the bot framework, as far as the handlers read it. *)
Record AstrMessageEvent := {
  get_group_id : option str;
  get_sender_id : str;
  unified_msg_origin : str;
}.

(** The dictionary returned by [validate_and_process_tags]. *)
Record TagResult := {
  success : bool;
  error_message : str;
}.

(** A stored tag row; the handlers read its [tag] attribute. *)
Record TagEntry := { tag : str }.

(** The dictionary returned by [get_queue_status]. *)
Record QueueStatus := {
  queue_size : Z;
  is_queue_processor_running : bool;
  active_groups : list str;
  execution_locks : gmap str bool;
}.

(** The calls a handler makes, with their arguments. *)
Inductive Call :=
| ValidateAndProcessTags (tags : str)
| AddRandomTag (chat_id session_id tag : str)
| RemoveRandomTag (chat_id : str) (idx : Z)
| GetRandomTags (chat_id : str)
| SuspendRandomSearch (chat_id : str)
| ResumeRandomSearch (chat_id : str)
| GetRandomSearchStatus (chat_id : str)
| SuspendGroupSearch (chat_id : str)
| ResumeGroupSearch (chat_id : str)
| GetQueueStatus
| ForceExecuteGroup (chat_id : str).

(** What each call returns. *)
Definition answer (c : Call) : Type :=
  match c with
  | ValidateAndProcessTags _ => TagResult
  | AddRandomTag _ _ _ | RemoveRandomTag _ _ => bool * str
  | SuspendRandomSearch _ | ResumeRandomSearch _ => bool * str
  | GetRandomTags _ => list TagEntry
  | GetRandomSearchStatus _ => bool * bool
  | SuspendGroupSearch _ | ResumeGroupSearch _ => unit
  | GetQueueStatus => QueueStatus
  | ForceExecuteGroup _ => bool
  end.

(** The chat a call is about, if it is about one. *)
Definition call_chat (c : Call) : option str :=
  match c with
  | ValidateAndProcessTags _ | GetQueueStatus => None
  | AddRandomTag chat _ _ | RemoveRandomTag chat _ | GetRandomTags chat
  | SuspendRandomSearch chat | ResumeRandomSearch chat
  | GetRandomSearchStatus chat | SuspendGroupSearch chat
  | ResumeGroupSearch chat | ForceExecuteGroup chat => Some chat
  end.

(** Whether the handler awaits the call, which is then a point where it
    can be suspended, or makes it as a plain synchronous call. *)
Definition awaited (c : Call) : bool :=
  match c with
  | ForceExecuteGroup _ => true
  | _ => false
  end.

(** ** Asynchronous generators *)

(** A handler either finishes, yields a plain-text result and goes on,
    calls a collaborator and goes on with its answer, or raises. *)
Inductive gen (A : Type) : Type :=
| Done (a : A)
| Yield (m : str) (k : gen A)
| Invoke (c : Call) (k : answer c → gen A)
| Raise (e : Exn).
Arguments Done {A} a.
Arguments Yield {A} m k.
Arguments Invoke {A} c k.
Arguments Raise {A} e.

Fixpoint gen_bind {A B} (p : gen A) (f : A → gen B) : gen B :=
  match p with
  | Done a => f a
  | Yield m k => Yield m (gen_bind k f)
  | Invoke c k => Invoke c (λ x, gen_bind (k x) f)
  | Raise e => Raise e
  end.

Notation "'let*' x := p 'in' q" := (gen_bind p (λ x, q))
  (at level 10, x pattern, p at level 100, q at level 200,
   format "'[v' 'let*'  x  :=  p  'in' '/' q ']'").
Notation "p ;; q" := (gen_bind p (λ _, q))
  (at level 100, q at level 200, right associativity).

(** [yield event.plain_result(m)] *)
Definition plain_result (m : str) : gen unit := Yield m (Done tt).
(** a call whose answer the handler uses *)
Definition call (c : Call) : gen (answer c) := Invoke c Done.
(** the value of an expression that may raise *)
Definition try_ {A} (r : Exn + A) : gen A :=
  match r with inl e => Raise e | inr a => Done a end.

(** The collaborators' functions and methods, as the handlers call them. *)
Definition validate_and_process_tags (tags : str) : gen TagResult :=
  call (ValidateAndProcessTags tags).
Definition add_random_tag (chat_id session_id tag : str) : gen (bool * str) :=
  call (AddRandomTag chat_id session_id tag).
Definition remove_random_tag (chat_id : str) (idx : Z) : gen (bool * str) :=
  call (RemoveRandomTag chat_id idx).
Definition get_random_tags (chat_id : str) : gen (list TagEntry) :=
  call (GetRandomTags chat_id).
Definition suspend_random_search (chat_id : str) : gen (bool * str) :=
  call (SuspendRandomSearch chat_id).
Definition resume_random_search (chat_id : str) : gen (bool * str) :=
  call (ResumeRandomSearch chat_id).
Definition get_random_search_status (chat_id : str) : gen (bool * bool) :=
  call (GetRandomSearchStatus chat_id).
Definition suspend_group_search (chat_id : str) : gen unit :=
  call (SuspendGroupSearch chat_id).
Definition resume_group_search (chat_id : str) : gen unit :=
  call (ResumeGroupSearch chat_id).
Definition get_queue_status : gen QueueStatus := call GetQueueStatus.
Definition force_execute_group (chat_id : str) : gen bool :=
  call (ForceExecuteGroup chat_id).

(** ** handlers/random_illust.py *)

Module RandomIllustHandler.

Definition nl : str := [10%N].

(** The literal replies of the handlers. *)
Definition ADD_PROMPT : str := text "请输入要添加的随机搜索标签。".
Definition DEL_PROMPT : str :=
  text "请输入要删除的标签序号 (数字)。可通过 /pixiv_random_list 查看。".
Definition NO_TAGS : str := text "当前没有任何随机搜索标签。".
Definition LIST_HEADER : str := text "当前随机搜索标签列表：" ++ nl.
Definition NO_CONFIG : str := text "当前群聊没有配置随机搜索标签。".
Definition ALREADY_SUSPENDED : str :=
  text "当前群聊的随机搜索已经处于暂停状态。".
Definition ALREADY_RUNNING : str :=
  text "当前群聊的随机搜索已经处于运行状态。".
Definition FORCE_QUEUED : str :=
  text "已强制将当前群聊加入执行队列，请稍等...".
Definition FORCE_BUSY : str := text "强制执行失败，群组可能正在执行中。".

Arguments ADD_PROMPT : simpl never.
Arguments DEL_PROMPT : simpl never.
Arguments NO_TAGS : simpl never.
Arguments LIST_HEADER : simpl never.
Arguments NO_CONFIG : simpl never.
Arguments ALREADY_SUSPENDED : simpl never.
Arguments ALREADY_RUNNING : simpl never.
Arguments FORCE_QUEUED : simpl never.
Arguments FORCE_BUSY : simpl never.

(** [event.get_group_id() or event.get_sender_id()] *)
Definition chat_id_of (event : AstrMessageEvent) : str :=
  or_ (get_group_id event) (get_sender_id event).

(** [enumerate(l)] *)
Definition enumerate {A} (l : list A) : list (Z * A) :=
  imap (λ i x, (Z.of_nat i, x)) l.

(** [len(x)] *)
Definition len {A} (l : list A) : Z := Z.of_nat (length l).

Section Handlers.
Context `{Runtime}.

Definition pixiv_random_add (event : AstrMessageEvent) (tags : str)
  : gen unit :=
  let cleaned_tags := strip tags in
  if negb (truthy cleaned_tags) then
    plain_result ADD_PROMPT
  else
    let* tag_result := validate_and_process_tags cleaned_tags in
    if negb (success tag_result) then
      plain_result (error_message tag_result)
    else
      let chat_id := chat_id_of event in
      let session_id := unified_msg_origin event in
      let* (success, message) :=
        add_random_tag chat_id session_id cleaned_tags in
      plain_result message.

Definition pixiv_random_del (event : AstrMessageEvent) (index : str)
  : gen unit :=
  if negb (isdigit index) then
    plain_result DEL_PROMPT
  else
    let* n := try_ (int_ index) in
    let idx := n - 1 in
    let chat_id := chat_id_of event in
    let* (success, message) := remove_random_tag chat_id idx in
    plain_result message.

Definition pixiv_random_list (event : AstrMessageEvent) (args : str)
  : gen unit :=
  let chat_id := chat_id_of event in
  let* tags := get_random_tags chat_id in
  if negb (bool_decide (tags ≠ [])) then
    plain_result NO_TAGS
  else
    let msg := LIST_HEADER in
    let msg :=
      foldl (λ msg '(i, tag_entry),
               msg ++ format_int (i + 1) ++ text ". " ++ tag tag_entry ++ nl)
            msg (enumerate tags) in
    plain_result msg.

Definition pixiv_random_suspend (event : AstrMessageEvent) : gen unit :=
  let chat_id := chat_id_of event in
  let* (has_config, is_suspended) := get_random_search_status chat_id in
  if negb has_config then
    plain_result NO_CONFIG
  else if is_suspended then
    plain_result ALREADY_SUSPENDED
  else
    let* (success, message) := suspend_random_search chat_id in
    (if success then suspend_group_search chat_id else Done tt);;
    plain_result message.

Definition pixiv_random_resume (event : AstrMessageEvent) : gen unit :=
  let chat_id := chat_id_of event in
  let* (has_config, is_suspended) := get_random_search_status chat_id in
  if negb has_config then
    plain_result NO_CONFIG
  else if negb is_suspended then
    plain_result ALREADY_RUNNING
  else
    let* (success, message) := resume_random_search chat_id in
    (if success then resume_group_search chat_id else Done tt);;
    plain_result message.

Definition pixiv_random_status (event : AstrMessageEvent) : gen unit :=
  let* status := get_queue_status in
  let msg := text "随机搜索队列状态：" ++ nl in
  let msg :=
    msg ++ text "队列大小: " ++ format_int (queue_size status) ++ nl in
  let msg :=
    msg ++ text "队列处理器运行中: "
        ++ (if is_queue_processor_running status
            then text "是" else text "否") ++ nl in
  let msg :=
    msg ++ text "活跃群组数量: "
        ++ format_int (len (active_groups status)) ++ nl in
  let msg :=
    if bool_decide (active_groups status ≠ []) then
      msg ++ text "活跃群组: "
          ++ join (text ", ") (active_groups status) ++ nl
    else msg in
  let msg :=
    msg ++ text "总锁状态: "
        ++ format_int (Z.of_nat (size (execution_locks status)))
        ++ text " 个群组" ++ nl in
  plain_result msg.

Definition pixiv_random_force (event : AstrMessageEvent) : gen unit :=
  let chat_id := chat_id_of event in
  let* (has_config, is_suspended) := get_random_search_status chat_id in
  if negb has_config then
    plain_result NO_CONFIG
  else
    let* success := force_execute_group chat_id in
    if success then plain_result FORCE_QUEUED
    else plain_result FORCE_BUSY.

End Handlers.

End RandomIllustHandler.

(** ** Running a generator against its collaborators *)

(** One completed call and what it returned. *)
Inductive Invocation := Invoked (c : Call) (r : answer c).

Definition invoked_call (i : Invocation) : Call :=
  match i with Invoked c _ => c end.

(** The collaborators over a world [W]: every call returns an answer and a
    new world (the store and the core report failure in their answers and
    do not raise). *)
Definition Env (W : Type) : Type := ∀ c : Call, W → answer c * W.

(** What a consumer that drains the generator observes. *)
Record Run (W A : Type) := {
  replies : list str;            (* the plain results, in order *)
  trace : list Invocation;       (* the calls made, in order *)
  final : W;                     (* the world afterwards *)
  outcome : Exn + A;             (* how the generator ended *)
}.
Arguments replies {W A} r.
Arguments trace {W A} r.
Arguments final {W A} r.
Arguments outcome {W A} r.

Fixpoint run {W A} (env : Env W) (p : gen A) (w : W) : Run W A :=
  match p with
  | Done a => {| replies := []; trace := []; final := w; outcome := inr a |}
  | Raise e => {| replies := []; trace := []; final := w; outcome := inl e |}
  | Yield m k =>
    let r := run env k w in
    {| replies := m :: replies r; trace := trace r;
       final := final r; outcome := outcome r |}
  | Invoke c k =>
    let '(x, w') := env c w in
    let r := run env (k x) w' in
    {| replies := replies r; trace := Invoked c x :: trace r;
       final := final r; outcome := outcome r |}
  end.

Definition calls {W A} (r : Run W A) : list Call := invoked_call <$> trace r.

(** ** utils/database.py: the tag store *)

Module Database.

(** Modelled from the spec: [utils/database.py] is not among the sources.
    One [ChatSearchConfig] per chat: the session that receives the
    results, the tags in insertion order (duplicates allowed) and the
    suspended flag. *)
Record ChatSearchConfig := {
  session_id : str;
  tags : list str;
  suspended : bool;
}.

(** Modelled from the spec: the wording of the store's status strings is
    not in the sources; the store is given its texts. *)
Record Wording := {
  tag_added : str;
  tag_removed : str;
  index_out_of_range : str;
  search_suspended : str;
  search_resumed : str;
  not_configured : str;
}.

Section Store.
Context (wording : Wording).
Implicit Type db : gmap str ChatSearchConfig.

(** Modelled from the spec: [add_random_tag] appends to the chat's tag
    list and creates the config if it is absent. *)
Definition add_random_tag (chat_id session tag : str) db
  : (bool * str) * gmap str ChatSearchConfig :=
  let cfg :=
    default {| session_id := session; tags := []; suspended := false |}
            (db !! chat_id) in
  ((true, tag_added wording),
   <[chat_id := {| session_id := session_id cfg;
                   tags := tags cfg ++ [tag];
                   suspended := suspended cfg |}]> db).

(** Modelled from the spec: [remove_random_tag] takes a 0-based index
    and fails, changing nothing, if the index is negative or not below
    the length of the list. *)
Definition remove_random_tag (chat_id : str) (idx : Z) db
  : (bool * str) * gmap str ChatSearchConfig :=
  match db !! chat_id with
  | None => ((false, index_out_of_range wording), db)
  | Some cfg =>
    if bool_decide (idx < 0 ∨ Z.of_nat (length (tags cfg)) ≤ idx)
    then ((false, index_out_of_range wording), db)
    else ((true, tag_removed wording),
          <[chat_id := {| session_id := session_id cfg;
                          tags := delete (Z.to_nat idx) (tags cfg);
                          suspended := suspended cfg |}]> db)
  end.

(** Modelled from the spec: [get_random_tags] is read-only and gives the
    empty sequence if no config exists. *)
Definition get_random_tags (chat_id : str) db : list TagEntry :=
  match db !! chat_id with
  | None => []
  | Some cfg => Build_TagEntry <$> tags cfg
  end.

(** Modelled from the spec: [get_random_search_status] gives
    [(has_config, is_suspended)]; a chat whose list is empty has no
    configuration, and then [is_suspended] is false. *)
Definition get_random_search_status (chat_id : str) db : bool * bool :=
  match db !! chat_id with
  | None => (false, false)
  | Some cfg =>
    if bool_decide (tags cfg = []) then (false, false)
    else (true, suspended cfg)
  end.

(** Modelled from the spec: setting the suspended flag of an existing
    config, the part of [utils/database.py] behind suspend and resume. *)
Definition set_suspended (flag : bool) (chat_id : str) db
  : gmap str ChatSearchConfig :=
  match db !! chat_id with
  | None => db
  | Some cfg =>
    <[chat_id := {| session_id := session_id cfg; tags := tags cfg;
                    suspended := flag |}]> db
  end.

(** Modelled from the spec: [suspend_random_search] and
    [resume_random_search] set the flag and report success, whatever
    the flag was; without a config there is nothing to set. *)
Definition suspend_random_search (chat_id : str) db
  : (bool * str) * gmap str ChatSearchConfig :=
  match db !! chat_id with
  | None => ((false, not_configured wording), db)
  | Some _ =>
    ((true, search_suspended wording), set_suspended true chat_id db)
  end.

(** Modelled from the spec: [resume_random_search] of [utils/database.py],
    the mirror image of [suspend_random_search]. *)
Definition resume_random_search (chat_id : str) db
  : (bool * str) * gmap str ChatSearchConfig :=
  match db !! chat_id with
  | None => ((false, not_configured wording), db)
  | Some _ =>
    ((true, search_resumed wording), set_suspended false chat_id db)
  end.

End Store.

End Database.

(** ** utils/random_search.py: the scheduling core *)

Module RandomSearchService.

(** Modelled from the spec: a background task of [utils/random_search.py],
    of which only the life cycle is kept. *)
Inductive Task := NotStarted | Running | Cancelled.

#[export] Instance Task_eq_dec : EqDecision Task.
Proof. solve_decision. Defined.

(** Modelled from the spec: [utils/random_search.py] is not among the
    sources.  The core owns the FIFO work queue, the table of next fire
    times, the chats taken out of ticking, the execution locks (chat to
    lock-held flag) and its two background tasks. *)
Record t := {
  queue : list str;
  next_fire_at : gmap str Z;
  suspended_groups : gset str;
  locks : gmap str bool;
  tick_generator : Task;
  queue_processor : Task;
}.

(** Modelled from the spec: the states of a chat in the core of
    [utils/random_search.py]; a chat is queued while it is in the work
    queue and executing while its lock is held. *)
Definition Queued (s : t) (chat_id : str) : Prop := chat_id ∈ queue s.
Definition Executing (s : t) (chat_id : str) : Prop :=
  locks s !! chat_id = Some true.

#[export] Instance Queued_dec s chat_id : Decision (Queued s chat_id).
Proof. unfold Queued. apply _. Defined.
#[export] Instance Executing_dec s chat_id : Decision (Executing s chat_id).
Proof. unfold Executing. apply _. Defined.

(** Field updates of the record above. *)
Definition with_queue (q : list str) (s : t) : t :=
  {| queue := q; next_fire_at := next_fire_at s;
     suspended_groups := suspended_groups s; locks := locks s;
     tick_generator := tick_generator s;
     queue_processor := queue_processor s |}.

Definition with_tasks (tick proc : Task) (s : t) : t :=
  {| queue := queue s; next_fire_at := next_fire_at s;
     suspended_groups := suspended_groups s; locks := locks s;
     tick_generator := tick; queue_processor := proc |}.

(** Modelled from the spec: [start] launches the tick generator and the
    queue processor; [stop] cancels both. *)
Definition start (s : t) : t := with_tasks Running Running s.
Definition stop (s : t) : t := with_tasks Cancelled Cancelled s.

(** Modelled from the spec: a chat is enqueued by the tick if it is not
    suspended (its configuration exists and its suspended flag is off, and
    the core has not taken it out of ticking), its fire time has elapsed
    and it is not in the queue. *)
Definition due (now : Z) (db : gmap str Database.ChatSearchConfig) (s : t)
           (chat_id : str) : bool :=
  bool_decide (Database.get_random_search_status chat_id db = (true, false))
  && bool_decide (chat_id ∉ suspended_groups s)
  && match next_fire_at s !! chat_id with
     | Some fire_at => bool_decide (fire_at ≤ now)
     | None => false
     end
  && bool_decide (chat_id ∉ queue s).

(** Modelled from the spec: one coarse tick scans the scheduled chats and
    enqueues those that are due. *)
Definition tick (now : Z) (db : gmap str Database.ChatSearchConfig) (s : t)
  : t :=
  with_queue
    (queue s ++ filter (λ c, due now db s c = true)
                       (elements (dom (next_fire_at s))))
    s.

(** Modelled from the spec: [suspend_group_search] takes the chat out of
    future ticks and leaves the queue, the locks and the (now stale) fire
    time alone. *)
Definition suspend_group_search (chat_id : str) (s : t) : t :=
  {| queue := queue s; next_fire_at := next_fire_at s;
     suspended_groups := {[chat_id]} ∪ suspended_groups s;
     locks := locks s; tick_generator := tick_generator s;
     queue_processor := queue_processor s |}.

(** Modelled from the spec: [resume_group_search] re-admits the chat and
    schedules it [delay] after [now]. *)
Definition resume_group_search (now delay : Z) (chat_id : str) (s : t) : t :=
  {| queue := queue s;
     next_fire_at := <[chat_id := now + delay]> (next_fire_at s);
     suspended_groups := suspended_groups s ∖ {[chat_id]};
     locks := locks s; tick_generator := tick_generator s;
     queue_processor := queue_processor s |}.

(** Modelled from the spec: [force_execute_group] enqueues the chat at
    once whatever its timer says, and returns false, enqueuing nothing,
    if the chat is already queued or executing. *)
Definition force_execute_group (chat_id : str) (s : t) : bool * t :=
  if bool_decide (Queued s chat_id ∨ Executing s chat_id)
  then (false, s)
  else (true, with_queue (queue s ++ [chat_id]) s).

(** Modelled from the spec: [get_queue_status] is a snapshot that reads
    sizes and keys only; the active groups are the scheduled chats that
    are not suspended. *)
Definition get_queue_status (s : t) : QueueStatus :=
  {| queue_size := Z.of_nat (length (queue s));
     is_queue_processor_running :=
       bool_decide (queue_processor s = Running);
     active_groups :=
       elements (dom (next_fire_at s) ∖ suspended_groups s);
     execution_locks := locks s |}.

End RandomSearchService.

(** ** The collaborators put together *)

(** The world the handlers run in: the tag store, the scheduling core, the
    time of day and the delays the random source is going to produce. *)
Record World := {
  db : gmap str Database.ChatSearchConfig;
  service : RandomSearchService.t;
  now : Z;
  draws : nat → Z;
  drawn : nat;
}.

Definition with_db (d : gmap str Database.ChatSearchConfig) (w : World)
  : World :=
  {| db := d; service := service w; now := now w;
     draws := draws w; drawn := drawn w |}.

Definition with_service (s : RandomSearchService.t) (w : World) : World :=
  {| db := db w; service := s; now := now w;
     draws := draws w; drawn := drawn w |}.

Section Collaborators.
(** The validator of [utils/tag.py] and the texts of the store are
    inputs. *)
Context (validator : str → TagResult) (wording : Database.Wording).

Definition collaborators : Env World := λ c,
  match c as c0 return World → answer c0 * World with
  | ValidateAndProcessTags tags => λ w, (validator tags, w)
  | AddRandomTag chat_id session tag => λ w,
    let '(r, d) := Database.add_random_tag wording chat_id session tag (db w)
    in (r, with_db d w)
  | RemoveRandomTag chat_id idx => λ w,
    let '(r, d) := Database.remove_random_tag wording chat_id idx (db w)
    in (r, with_db d w)
  | GetRandomTags chat_id => λ w,
    (Database.get_random_tags chat_id (db w), w)
  | SuspendRandomSearch chat_id => λ w,
    let '(r, d) := Database.suspend_random_search wording chat_id (db w)
    in (r, with_db d w)
  | ResumeRandomSearch chat_id => λ w,
    let '(r, d) := Database.resume_random_search wording chat_id (db w)
    in (r, with_db d w)
  | GetRandomSearchStatus chat_id => λ w,
    (Database.get_random_search_status chat_id (db w), w)
  | SuspendGroupSearch chat_id => λ w,
    (tt, with_service
           (RandomSearchService.suspend_group_search chat_id (service w)) w)
  | ResumeGroupSearch chat_id => λ w,
    (tt, {| db := db w;
            service :=
              RandomSearchService.resume_group_search
                (now w) (draws w (drawn w)) chat_id (service w);
            now := now w; draws := draws w; drawn := S (drawn w) |})
  | GetQueueStatus => λ w,
    (RandomSearchService.get_queue_status (service w), w)
  | ForceExecuteGroup chat_id => λ w,
    let '(r, s) :=
      RandomSearchService.force_execute_group chat_id (service w)
    in (r, with_service s w)
  end.

End Collaborators.

(** ** main.py *)

Module PixivSearchPlugin.

(** [async for result in handler: yield result] *)
Fixpoint forward (handler : gen unit) : gen unit :=
  match handler with
  | Done _ => Done tt
  | Yield result k => Yield result (forward k)
  | Invoke c k => Invoke c (λ x, forward (k x))
  | Raise e => Raise e
  end.

Section Wrappers.
Context `{Runtime}.

Definition pixiv_random_add (event : AstrMessageEvent) (tags : str) :=
  forward (RandomIllustHandler.pixiv_random_add event tags).
Definition pixiv_random_del (event : AstrMessageEvent) (index : str) :=
  forward (RandomIllustHandler.pixiv_random_del event index).
Definition pixiv_random_list (event : AstrMessageEvent) (args : str) :=
  forward (RandomIllustHandler.pixiv_random_list event args).
Definition pixiv_random_suspend (event : AstrMessageEvent) :=
  forward (RandomIllustHandler.pixiv_random_suspend event).
Definition pixiv_random_resume (event : AstrMessageEvent) :=
  forward (RandomIllustHandler.pixiv_random_resume event).
Definition pixiv_random_status (event : AstrMessageEvent) :=
  forward (RandomIllustHandler.pixiv_random_status event).
Definition pixiv_random_force (event : AstrMessageEvent) :=
  forward (RandomIllustHandler.pixiv_random_force event).
End Wrappers.

(** Modelled from the spec: [utils/subscription.py] is not among the
    sources; of the subscription service only whether it is polling, which
    [start] and [stop] switch, is kept. *)
Record SubscriptionService := { polling : bool }.

(** The asyncio task and the HTTP session the plugin may hold, as far as
    [terminate] uses them. *)

Inductive Awaited :=
| RaisesCancelledError
| RaisesException (e : str)
| Returns.

Record AsyncTask := {
  done : bool;
  cancel_requested : bool;
  awaited : Awaited;        (* what awaiting the task does *)
}.

Record ClientSession := { closed : bool }.

(** The plugin object.  [random_search_service] is the service object
    that [RandomIllustHandler.__init__] created; the plugin's attribute
    and the handler's are two names of that one object. *)
Record t := {
  sub_service : option SubscriptionService;
  _refresh_task : option AsyncTask;
  _http_session : option ClientSession;
  random_search_service : RandomSearchService.t;
}.

(** What the life cycle code does to its surroundings, in order. *)
Inductive Action :=
| LoggerInfo (m : str)
| LoggerError (m : str)
| SubServiceStart
| SubServiceStop
| RandomSearchServiceStart
| RefreshTaskCancel
| RefreshTaskAwait
| HttpSessionClose.

(** Modelled from the spec: the state of a [RandomSearchService] of
    [utils/random_search.py] that was just constructed. *)
Definition new_service : RandomSearchService.t :=
  {| RandomSearchService.queue := [];
     RandomSearchService.next_fire_at := ∅;
     RandomSearchService.suspended_groups := ∅;
     RandomSearchService.locks := ∅;
     RandomSearchService.tick_generator := RandomSearchService.NotStarted;
     RandomSearchService.queue_processor := RandomSearchService.NotStarted |}.

(** [__init__], from the attributes [terminate] reads onwards: the
    refresh task is created but not kept, the subscription service is
    created and started if the configuration enables it, and the random
    search service of the handler is started. *)
Definition __init__ (subscription_enabled : bool) : t * list Action :=
  let self :=
    {| sub_service := None; _refresh_task := None; _http_session := None;
       random_search_service := new_service |} in
  let '(sub, acts) :=
    if subscription_enabled
    then (Some {| polling := true |}, [SubServiceStart])
    else (sub_service self,
          [LoggerInfo (text "Pixiv 插件：订阅功能已禁用。")]) in
  ({| sub_service := sub;
      _refresh_task := _refresh_task self;
      _http_session := _http_session self;
      random_search_service :=
        RandomSearchService.start (random_search_service self) |},
   acts ++ [RandomSearchServiceStart]).

Definition terminate (self : t) : t * list Action :=
  let acts := [LoggerInfo (text "Pixiv 搜索插件正在停用...")] in
  (* if self.sub_service: self.sub_service.stop() *)
  let '(sub, acts) :=
    match sub_service self with
    | Some _ => (Some {| polling := false |}, acts ++ [SubServiceStop])
    | None => (None, acts)
    end in
  (* if self._refresh_task and not self._refresh_task.done(): ... *)
  let '(task, acts) :=
    match _refresh_task self with
    | Some task =>
      if negb (done task) then
        let task' := {| done := true; cancel_requested := true;
                        awaited := awaited task |} in
        let acts := acts ++ [RefreshTaskCancel; RefreshTaskAwait] in
        match awaited task with
        | RaisesCancelledError =>
          (Some task',
           acts ++ [LoggerInfo (text "Pixiv Token 刷新任务已成功取消。")])
        | RaisesException e =>
          (Some task',
           acts ++ [LoggerError
                      (text "等待 Pixiv Token 刷新任务取消时发生错误: "
                         ++ e)])
        | Returns => (Some task', acts)
        end
      else (Some task, acts)
    | None => (None, acts)
    end in
  let acts := acts ++ [LoggerInfo (text "Pixiv 搜索插件已停用。")] in
  (* if self._http_session and not self._http_session.closed: ... *)
  let '(session, acts) :=
    match _http_session self with
    | Some session =>
      if negb (closed session)
      then (Some {| closed := true |}, acts ++ [HttpSessionClose])
      else (Some session, acts)
    | None => (None, acts)
    end in
  ({| sub_service := sub; _refresh_task := task; _http_session := session;
      random_search_service := random_search_service self |},
   acts).

End PixivSearchPlugin.

Import RandomIllustHandler.

(** ** The command table *)

(** The random-search commands registered by [main.py], with their
    arguments. *)
Inductive Command :=
| PixivRandomAdd (tags : str)
| PixivRandomDel (index : str)
| PixivRandomList (args : str)
| PixivRandomSuspend
| PixivRandomResume
| PixivRandomStatus
| PixivRandomForce.

Section Dispatch.
Context `{Runtime}.

Definition dispatch (cmd : Command) (event : AstrMessageEvent) : gen unit :=
  match cmd with
  | PixivRandomAdd tags => PixivSearchPlugin.pixiv_random_add event tags
  | PixivRandomDel index => PixivSearchPlugin.pixiv_random_del event index
  | PixivRandomList args => PixivSearchPlugin.pixiv_random_list event args
  | PixivRandomSuspend => PixivSearchPlugin.pixiv_random_suspend event
  | PixivRandomResume => PixivSearchPlugin.pixiv_random_resume event
  | PixivRandomStatus => PixivSearchPlugin.pixiv_random_status event
  | PixivRandomForce => PixivSearchPlugin.pixiv_random_force event
  end.

(** Commands handled one after the other, each in the world the previous
    one left. *)
Fixpoint session {W} (env : Env W)
         (inputs : list (Command * AstrMessageEvent)) (w : W)
  : list (Run W unit) :=
  match inputs with
  | [] => []
  | (cmd, event) :: rest =>
    let r := run env (dispatch cmd event) w in
    r :: session env rest (final r)
  end.
End Dispatch.

(** ** Observations on runs *)

(** A run that made one call, yielded one reply and returned. *)
Definition one_call {W} (c : Call) (x : answer c) (w' : W) (reply : str)
           (r : Run W unit) : Prop :=
  replies r = [reply] ∧ trace r = [Invoked c x]
  ∧ final r = w' ∧ outcome r = inr tt.

(** A call that is about [chat_id] or about no chat at all. *)
Definition targets (chat_id : str) (c : Call) : Prop :=
  call_chat c = None ∨ call_chat c = Some chat_id.

(** A generator all of whose calls, whatever the answers, are about
    [chat_id] or about no chat. *)
Fixpoint targets_only {A} (chat_id : str) (p : gen A) : Prop :=
  match p with
  | Done _ | Raise _ => True
  | Yield _ k => targets_only chat_id k
  | Invoke c k => targets chat_id c ∧ ∀ x, targets_only chat_id (k x)
  end.

(** The tags stored for a chat, in stored order. *)
Definition stored_tags (chat_id : str) (w : World) : list str :=
  tag <$> Database.get_random_tags chat_id (db w).

(** One line of the tag listing: the tag at 0-based position [i]. *)
Definition listing_line (i : nat) (tag : str) : str :=
  format_int (Z.of_nat i + 1) ++ text ". " ++ tag ++ nl.

(** The core with other flags in its locks. *)
Definition with_lock_flags (flags : gmap str bool) (s : RandomSearchService.t)
  : RandomSearchService.t :=
  {| RandomSearchService.queue := RandomSearchService.queue s;
     RandomSearchService.next_fire_at := RandomSearchService.next_fire_at s;
     RandomSearchService.suspended_groups :=
       RandomSearchService.suspended_groups s;
     RandomSearchService.locks := flags;
     RandomSearchService.tick_generator :=
       RandomSearchService.tick_generator s;
     RandomSearchService.queue_processor :=
       RandomSearchService.queue_processor s |}.

(** The text of the status reply for a snapshot. *)
Definition status_text (status : QueueStatus) : str :=
  text "随机搜索队列状态：" ++ nl
  ++ text "队列大小: " ++ format_int (queue_size status) ++ nl
  ++ text "队列处理器运行中: "
  ++ (if is_queue_processor_running status then text "是" else text "否")
  ++ nl
  ++ text "活跃群组数量: "
  ++ format_int (Z.of_nat (length (active_groups status))) ++ nl
  ++ match active_groups status with
     | [] => []
     | _ => text "活跃群组: " ++ join (text ", ") (active_groups status) ++ nl
     end
  ++ text "总锁状态: "
  ++ format_int (Z.of_nat (size (execution_locks status)))
  ++ text " 个群组" ++ nl.

(** ** The handlers behind the command table *)

Section HandlerTable.
Context `{Runtime}.

(** The method of [RandomIllustHandler] a command of [main.py] delegates
    to. *)
Definition handler (cmd : Command) (event : AstrMessageEvent) : gen unit :=
  match cmd with
  | PixivRandomAdd tags => RandomIllustHandler.pixiv_random_add event tags
  | PixivRandomDel index => RandomIllustHandler.pixiv_random_del event index
  | PixivRandomList args => RandomIllustHandler.pixiv_random_list event args
  | PixivRandomSuspend => RandomIllustHandler.pixiv_random_suspend event
  | PixivRandomResume => RandomIllustHandler.pixiv_random_resume event
  | PixivRandomStatus => RandomIllustHandler.pixiv_random_status event
  | PixivRandomForce => RandomIllustHandler.pixiv_random_force event
  end.
End HandlerTable.

(** A generator that, whatever the answers to its calls, yields one result
    as its last act and does not raise. *)
Fixpoint replies_once {A} (p : gen A) : Prop :=
  match p with
  | Done _ | Raise _ => False
  | Yield _ k => match k with Done _ => True | _ => False end
  | Invoke _ k => ∀ x, replies_once (k x)
  end.

(** ** main.py: the session, and the commands the plugin handles itself *)

Module PluginMethods.

(** *** The HTTP session *)

(** [_get_http_session]: the session the plugin holds is returned if
    there is one and it is open; otherwise a new session is created, kept
    and returned.  The result says which session is returned and whether
    it was created by this call. *)
Definition _get_http_session (self : PixivSearchPlugin.t)
  : PixivSearchPlugin.t * PixivSearchPlugin.ClientSession * bool :=
  match PixivSearchPlugin._http_session self with
  | Some session =>
    if PixivSearchPlugin.closed session then
      let fresh := {| PixivSearchPlugin.closed := false |} in
      ({| PixivSearchPlugin.sub_service := PixivSearchPlugin.sub_service self;
          PixivSearchPlugin._refresh_task :=
            PixivSearchPlugin._refresh_task self;
          PixivSearchPlugin._http_session := Some fresh;
          PixivSearchPlugin.random_search_service :=
            PixivSearchPlugin.random_search_service self |}, fresh, true)
    else (self, session, false)
  | None =>
    let fresh := {| PixivSearchPlugin.closed := false |} in
    ({| PixivSearchPlugin.sub_service := PixivSearchPlugin.sub_service self;
        PixivSearchPlugin._refresh_task :=
          PixivSearchPlugin._refresh_task self;
        PixivSearchPlugin._http_session := Some fresh;
        PixivSearchPlugin.random_search_service :=
          PixivSearchPlugin.random_search_service self |}, fresh, true)
  end.

(** What can happen to a plugin object once [__init__] has built it. *)
Inductive Step := GetHttpSession | Terminate.

#[export] Instance Action_eq_dec : EqDecision PixivSearchPlugin.Action.
Proof. solve_decision. Defined.

(** How often an action occurs in a list of actions. *)
Definition occurrences (a : PixivSearchPlugin.Action)
           (acts : list PixivSearchPlugin.Action) : nat :=
  length (filter (λ b, b = a) acts).

Definition step (self : PixivSearchPlugin.t) (s : Step)
  : PixivSearchPlugin.t :=
  match s with
  | GetHttpSession => (_get_http_session self).1.1
  | Terminate => (PixivSearchPlugin.terminate self).1
  end.

(** *** Values *)

(** An exception object: whether it is an [Exception] (and so caught by
    [except Exception]; a cancellation is not), and its [str(e)]. *)
Record PyErr := { is_Exception : bool; str_of : str }.

(** A dictionary from strings to values that are [None] or a string. *)
Abbreviation dict := (gmap str (option str)) (only parsing).

(** [d.get(key, default)] *)
Definition dict_get (d : dict) (key : str) (default : option str)
  : option str :=
  match d !! key with
  | Some v => v
  | None => default
  end.

(** The [{v}] of an f-string, and the truth value, of [None] or a string. *)
Definition format_val (v : option str) : str :=
  match v with Some s => s | None => text "None" end.

Definition truthy_val (v : option str) : bool :=
  match v with Some s => truthy s | None => false end.

(** [s.lower()].  On ASCII text it moves A to Z onto a to z; what it does
    to text with other characters is the Unicode database's. *)
Class Casing := { unicode_lower : str → str }.

Definition ascii_lower (c : N) : N :=
  if (65 <=? c)%N && (c <=? 90)%N then (c + 32)%N else c.

Definition isascii (s : str) : bool := forallb (λ c, c <? 128)%N s.

Definition lower `{Casing} (s : str) : str :=
  if isascii s then map ascii_lower s else unicode_lower s.

(** *** The calls of these methods *)

(** The calls, with their arguments: the help texts, the configuration,
    the logger, [traceback.format_exc], the configuration manager, and for
    the LLM search the construction of the context and the call of the tool
    at a position of [llm_tools]. *)
Inductive Op :=
| GetHelpMessage (key default : str)
| GetAuthErrorMessage
| SetAiFilterMode (mode : str)
| SaveConfig
| LoggerInfo (m : str)
| LoggerError (m : str)
| FormatExc
| HandleConfigCommand (arg1 arg2 : str)
| MockContext
| ToolCall (position : nat) (query search_type : str).

(** What each call gives back.  The calls of other objects that the code
    puts under [try] may raise; the others are taken to return. *)
Definition result (o : Op) : Type :=
  match o with
  | GetHelpMessage _ _ | GetAuthErrorMessage | FormatExc => str
  | SaveConfig | MockContext => PyErr + unit
  | SetAiFilterMode _ | LoggerInfo _ | LoggerError _ => unit
  | HandleConfigCommand _ _ => option str
  | ToolCall _ _ _ => PyErr + str
  end.

(** The requests that the code hands to [self._call_pixiv_api]: the method
    of [self.client] and its keyword argument. *)
Inductive ApiRequest :=
| TrendingTagsIllust (filter : str)
| UserEditAiShowSettings (setting : str).

(** A method: it returns, yields a plain result and goes on, makes a call
    and goes on with what the call gave back, or raises. *)
Inductive prog (A : Type) : Type :=
| Return (a : A)
| Reply (m : str) (k : prog A)
| Perform (o : Op) (k : result o → prog A)
| Throw (e : PyErr).
Arguments Return {A} a.
Arguments Reply {A} m k.
Arguments Perform {A} o k.
Arguments Throw {A} e.

Fixpoint prog_bind {A B} (p : prog A) (f : A → prog B) : prog B :=
  match p with
  | Return a => f a
  | Reply m k => Reply m (prog_bind k f)
  | Perform o k => Perform o (λ x, prog_bind (k x) f)
  | Throw e => Throw e
  end.

Notation "'do*' x := p 'in' q" := (prog_bind p (λ x, q))
  (at level 10, x pattern, p at level 100, q at level 200,
   format "'[v' 'do*'  x  :=  p  'in' '/' q ']'").
Notation "p ;;; q" := (prog_bind p (λ _, q))
  (at level 100, q at level 200, right associativity).

(** [try: body  except Exception as e: handler(e)]: an exception of the
    body that is an [Exception] goes to the handler, any other is raised
    on. *)
Fixpoint try_except {A} (body : prog A) (handler : PyErr → prog A) : prog A :=
  match body with
  | Return a => Return a
  | Reply m k => Reply m (try_except k handler)
  | Perform o k => Perform o (λ x, try_except (k x) handler)
  | Throw e => if is_Exception e then handler e else Throw e
  end.

(** [yield event.plain_result(m)] *)
Definition plain (m : str) : prog unit := Reply m (Return tt).

Definition get_help_message (key default : str) : prog str :=
  Perform (GetHelpMessage key default) Return.
Definition get_auth_error_message : prog str :=
  Perform GetAuthErrorMessage Return.
Definition logger_info (m : str) : prog unit := Perform (LoggerInfo m) Return.
Definition logger_error (m : str) : prog unit :=
  Perform (LoggerError m) Return.
Definition format_exc : prog str := Perform FormatExc Return.
Definition set_ai_filter_mode (mode : str) : prog unit :=
  Perform (SetAiFilterMode mode) Return.
Definition handle_config_command (arg1 arg2 : str) : prog (option str) :=
  Perform (HandleConfigCommand arg1 arg2) Return.

(** A call that may raise: what it raises is raised here. *)
Definition raising {B} (o : Op) (unpack : result o → PyErr + B) : prog B :=
  Perform o (λ r, match unpack r with
                  | inl e => Throw e
                  | inr x => Return x
                  end).
Definition save_config : prog unit := raising SaveConfig id.
Definition mock_context : prog unit := raising MockContext id.
Definition tool_call (position : nat) (query search_type : str) : prog str :=
  raising (ToolCall position query search_type) id.

(** *** Attributes that the plugin does not have *)

(** The [AttributeError] that looking up a missing attribute of the plugin
    object raises; it is an [Exception]. *)
Definition AttributeError (name : str) : PyErr :=
  {| is_Exception := true;
     str_of := text "'PixivSearchPlugin' object has no attribute '"
                 ++ name ++ text "'" |}.

(** [await self._authenticate()] and [await self._call_pixiv_api(...)].
    The methods of main.py use both names, but the class defines neither,
    [__init__] sets neither, and there is no [__getattr__]: looking up
    [self._authenticate] or [self._call_pixiv_api] raises [AttributeError]
    before anything is called or awaited. *)
Definition _authenticate : prog bool :=
  Throw (AttributeError (text "_authenticate")).

Definition _call_pixiv_api {A} (request : ApiRequest) : prog A :=
  Throw (AttributeError (text "_call_pixiv_api")).

(** *** pixiv_help and pixiv_config *)

Definition pixiv_help (event : AstrMessageEvent) (args : str) : prog unit :=
  do* help_text :=
    get_help_message (text "pixiv_help")
                     (text "帮助消息加载失败，请检查配置文件。") in
  plain help_text.

Definition pixiv_config (event : AstrMessageEvent) (arg1 arg2 : str)
  : prog unit :=
  do* result := handle_config_command arg1 arg2 in
  match result with
  | Some r => if truthy r then plain r else Return tt
  | None => Return tt
  end.

(** *** pixiv_trending_tags *)

(** The body of the loop over [result.trend_tags]: the line of one tag. *)
Definition trend_line (tag_info : dict) : str :=
  let tag_name := dict_get tag_info (text "tag") (Some (text "未知标签")) in
  let translated_name := dict_get tag_info (text "translated_name") None in
  if truthy_val translated_name && bool_decide (translated_name ≠ tag_name)
  then text "- " ++ format_val tag_name
       ++ text " (" ++ format_val translated_name ++ text ")"
  else text "- " ++ format_val tag_name.

Definition NO_TREND_TAGS : str :=
  text "未能获取到趋势标签，可能是 API 暂无数据。".
Definition NO_PARSED_TAGS : str := text "未能解析任何趋势标签。".
Definition TREND_HEADER : str := text "# Pixiv 插画趋势标签" ++ nl ++ nl.

(** The request gives the list [result.trend_tags], empty also when the
    result or the list is missing. *)
Definition pixiv_trending_tags (event : AstrMessageEvent) : prog unit :=
  logger_info (text "Pixiv 插件：正在获取插画趋势标签...");;;
  do* ok := _authenticate in
  if negb ok then
    do* m := get_auth_error_message in
    plain m
  else
    try_except
      (do* trend_tags :=
         _call_pixiv_api (TrendingTagsIllust (text "for_ios")) in
       if negb (bool_decide (trend_tags ≠ [])) then
         plain NO_TREND_TAGS
       else
         let tags_list :=
           foldl (λ tags_list tag_info, tags_list ++ [trend_line tag_info])
                 [] trend_tags in
         if negb (bool_decide (tags_list ≠ [])) then
           plain NO_PARSED_TAGS
         else
           let message := TREND_HEADER in
           let message := message ++ join nl tags_list in
           plain message)
      (λ e,
        logger_error (text "Pixiv 插件：获取趋势标签时发生错误 - "
                        ++ str_of e);;;
        plain (text "获取趋势标签时发生错误: " ++ str_of e)).

Section WithText.
Context `{Runtime} `{Casing}.

(** *** pixiv_ai_show_settings *)

Definition valid_settings : list str :=
  [text "true"; text "false"; text "1"; text "0";
   text "yes"; text "no"; text "on"; text "off"].

(** The request gives [result.error] if the result has one. *)
Definition pixiv_ai_show_settings (event : AstrMessageEvent) (setting : str)
  : prog unit :=
  if negb (truthy (strip setting))
     || bool_decide (lower (strip setting) = text "help") then
    do* help_text :=
      get_help_message
        (text "pixiv_ai_show_settings")
        (text "AI作品设置帮助消息加载失败，请检查配置文件。") in
    plain help_text
  else if negb (bool_decide (lower setting ∈ valid_settings)) then
    plain (text "无效的设置值: " ++ setting ++ nl
             ++ text "可用值: " ++ join (text ", ") valid_settings)
  else
    let setting_str :=
      if bool_decide (lower setting
                        ∈ [text "true"; text "1"; text "yes"; text "on"])
      then text "true" else text "false" in
    do* ok := _authenticate in
    if negb ok then
      do* m := get_auth_error_message in
      plain m
    else
      logger_info (text "Pixiv 插件：正在设置AI作品显示 - 设置: "
                     ++ setting_str);;;
      let update : prog unit :=
        let '(mode, mode_desc) :=
          if bool_decide (setting_str = text "true")
          then (text "显示 AI 作品", text "显示AI作品")
          else (text "过滤 AI 作品", text "过滤AI作品") in
        set_ai_filter_mode mode;;;
        save_config;;;
        plain (text "AI作品设置已更新为: " ++ mode_desc ++ nl
                 ++ text "本地配置已同步更新。") in
      try_except
        (do* error :=
           _call_pixiv_api (UserEditAiShowSettings setting_str) in
         match error : option dict with
         | Some err =>
           if bool_decide (err ≠ ∅) then
             plain (text "设置AI作品显示失败: "
                      ++ format_val
                           (dict_get err (text "message")
                                     (Some (text "未知错误"))))
           else update
         | None => update
         end)
        (λ e,
          logger_error (text "Pixiv 插件：设置AI作品显示时发生错误 - "
                          ++ str_of e);;;
          do* tb := format_exc in
          logger_error tb;;;
          plain (text "设置AI作品显示时发生错误: " ++ str_of e)).

End WithText.

(** *** pixiv_llm_search *)

(** [llm_tools] is given by the [name] of each tool, [None] for a tool
    without one. *)
Definition pixiv_llm_search (llm_tools : list (option str))
           (query search_type : str) : prog str :=
  try_except
    (do* ok := _authenticate in
     if negb ok then get_auth_error_message
     else
       logger_info (text "Pixiv 插件：使用LLM工具搜索 - 查询: " ++ query
                      ++ text ", 类型: " ++ search_type);;;
       match list_find (λ name, name = Some (text "pixiv_search"))
                       llm_tools with
       | None => Return (text "LLM搜索工具未初始化")
       | Some (position, _) =>
         mock_context;;;
         do* result := tool_call position query search_type in
         logger_info (text "Pixiv 插件：LLM搜索完成");;;
         Return result
       end)
    (λ e,
      let error_msg := text "LLM搜索时发生错误: " ++ str_of e in
      logger_error error_msg;;;
      Return error_msg).

(** *** Running a method *)

(** One completed call and what it gave back. *)
Inductive Performed := Did (o : Op) (x : result o).

Definition op_of (p : Performed) : Op := match p with Did o _ => o end.

(** The surroundings of the plugin over a world [W]. *)
Definition Surroundings (W : Type) : Type := ∀ o : Op, W → result o * W.

Record Exec (W A : Type) := {
  results : list str;            (* the plain results yielded, in order *)
  performed : list Performed;    (* the calls made, in order *)
  world : W;                     (* the world afterwards *)
  ending : PyErr + A;            (* raised, or returned *)
}.
Arguments results {W A} e.
Arguments performed {W A} e.
Arguments world {W A} e.
Arguments ending {W A} e.

Fixpoint exec {W A} (env : Surroundings W) (p : prog A) (w : W) : Exec W A :=
  match p with
  | Return a =>
    {| results := []; performed := []; world := w; ending := inr a |}
  | Throw e =>
    {| results := []; performed := []; world := w; ending := inl e |}
  | Reply m k =>
    let r := exec env k w in
    {| results := m :: results r; performed := performed r;
       world := world r; ending := ending r |}
  | Perform o k =>
    let '(x, w') := env o w in
    let r := exec env (k x) w' in
    {| results := results r; performed := Did o x :: performed r;
       world := world r; ending := ending r |}
  end.

Definition ops {W A} (r : Exec W A) : list Op := op_of <$> performed r.

(** The tool calls of a run, in order. *)
Definition tool_calls {W A} (r : Exec W A) : list (nat * str * str) :=
  omap (λ o, match o with
             | ToolCall position query search_type =>
               Some (position, query, search_type)
             | _ => None
             end)
       (ops r).

(** Whether a call is the look-up of a help text. *)
Definition is_help_lookup (o : Op) : bool :=
  match o with GetHelpMessage _ _ => true | _ => false end.

End PluginMethods.

(** ** Concrete collaborators and inputs *)

Module Example.

(** A runtime whose Unicode database stops at Latin-1: the superscripts
    two, three and one are digits without a decimal value, and NEL and the
    no-break space are blanks. *)
Definition latin1 : Runtime :=
  {| unicode_digit c := bool_decide (c ∈ [178; 179; 185]%N);
     unicode_decimal _ := None;
     unicode_space c := bool_decide (c ∈ [133; 160]%N);
     int_max_str_digits := 4300 |}.

Definition wording : Database.Wording :=
  {| Database.tag_added := text "tag added";
     Database.tag_removed := text "tag removed";
     Database.index_out_of_range := text "no such tag";
     Database.search_suspended := text "suspended";
     Database.search_resumed := text "resumed";
     Database.not_configured := text "no configuration" |}.

(** A validator that rejects tag text with a line break in it. *)
Definition validator (tags : str) : TagResult :=
  {| success := bool_decide (10%N ∉ tags);
     error_message := text "one line, please" |}.

Definition env : Env World := collaborators validator wording.

Definition g1 : str := text "g1".

(** Two members of the group [g1], and a private chat. *)
Definition alice : AstrMessageEvent :=
  {| get_group_id := Some g1; get_sender_id := text "alice";
     unified_msg_origin := text "qq:GroupMessage:g1" |}.
Definition bob : AstrMessageEvent :=
  {| get_group_id := Some g1; get_sender_id := text "bob";
     unified_msg_origin := text "qq:GroupMessage:g1" |}.
Definition carol : AstrMessageEvent :=
  {| get_group_id := Some []; get_sender_id := text "carol";
     unified_msg_origin := text "qq:FriendMessage:carol" |}.

Definition config (tags : list str) (suspended : bool)
  : Database.ChatSearchConfig :=
  {| Database.session_id := text "qq:GroupMessage:g1";
     Database.tags := tags; Database.suspended := suspended |}.

Definition idle : RandomSearchService.t :=
  RandomSearchService.start PixivSearchPlugin.new_service.

Definition world (tags : list str) (suspended : bool)
           (s : RandomSearchService.t) : World :=
  {| db := {[ g1 := config tags suspended ]}; service := s;
     now := 1000; draws := λ _, 60; drawn := 0 |}.

Definition cat_dog : list str := [text "cat"; text "dog"].

(** The core with [g1] due at 900, optionally queued or executing. *)
Definition core (queued executing : bool) : RandomSearchService.t :=
  {| RandomSearchService.queue := if queued then [g1] else [];
     RandomSearchService.next_fire_at := {[ g1 := 900 ]};
     RandomSearchService.suspended_groups := ∅;
     RandomSearchService.locks := {[ g1 := executing ]};
     RandomSearchService.tick_generator := RandomSearchService.Running;
     RandomSearchService.queue_processor := RandomSearchService.Running |}.

(** Worlds in which [g1] has no tags, has two, is suspended, is queued,
    and is executing. *)
Definition no_tags : World := world [] false idle.
Definition pets : World := world cat_dog false idle.
Definition pets_suspended : World :=
  world cat_dog true (core false false).
Definition pets_queued : World :=
  world cat_dog false (core true false).
Definition pets_executing : World :=
  world cat_dog false (core false true).

End Example.

(** ** Concrete surroundings of the plugin's own commands *)

Module Scripted.
Import PluginMethods.

(** What the calls that may fail give back. *)
Record Script := {
  save : PyErr + unit;
  tool : PyErr + str;
  config_reply : option str;
}.

(** Surroundings that answer by a script, give a help text's default for
    the help text, and count the calls. *)
Definition surroundings (s : Script) : Surroundings nat :=
  λ o w,
    (match o return result o with
     | GetHelpMessage _ default => default
     | GetAuthErrorMessage => text "not signed in"
     | SetAiFilterMode _ | LoggerInfo _ | LoggerError _ => tt
     | SaveConfig => save s
     | FormatExc => text "Traceback"
     | HandleConfigCommand _ _ => config_reply s
     | MockContext => inr tt
     | ToolCall _ _ _ => tool s
     end, S w).

(** Everything succeeds. *)
Definition smooth : Script :=
  {| save := inr tt; tool := inr (text "3 results");
     config_reply := Some (text "r18_mode: off") |}.

(** A [lower] that leaves text outside ASCII as it is. *)
Definition ascii_only : Casing := {| unicode_lower s := s |}.

End Scripted.

(** * Properties *)

(** ** Generators and runs *)

Lemma run_forward {W} (env : Env W) (g : gen unit) (w : W) :
  run env (PixivSearchPlugin.forward g) w = run env g w.
Proof.
  revert w; induction g as [[]|m k IH|c k IH|e]; intros w; cbn.
  - reflexivity.
  - by rewrite IH.
  - destruct (env c w) as [x w']. by rewrite IH.
  - reflexivity.
Qed.

Lemma targets_only_forward chat_id (g : gen unit) :
  targets_only chat_id g → targets_only chat_id (PixivSearchPlugin.forward g).
Proof.
  induction g as [a|m k IH|c k IH|e]; cbn; try done.
  intros [Hc Hk]. split; [done|]. intros x. by apply IH.
Qed.

Lemma targets_only_run {W A} (env : Env W) chat_id (p : gen A) (w : W) :
  targets_only chat_id p → Forall (targets chat_id) (calls (run env p w)).
Proof.
  unfold calls. revert w.
  induction p as [a|m k IH|c k IH|e]; intros w Hp; cbn in *.
  - constructor.
  - by apply IH.
  - destruct Hp as [Hc Hk]. destruct (env c w) as [x w']. cbn.
    constructor; [done|]. by apply IH.
  - constructor.
Qed.

(** ** Texts *)

Lemma singleton_inj {A} (x y : A) : [x] = [y] → x = y.
Proof. by intros [= ->]. Qed.

Lemma force_texts_differ : FORCE_QUEUED ≠ FORCE_BUSY.
Proof. by vm_compute. Qed.

Lemma no_config_is_not_busy : NO_CONFIG ≠ FORCE_BUSY.
Proof. by vm_compute. Qed.

Lemma no_config_is_not_queued : NO_CONFIG ≠ FORCE_QUEUED.
Proof. by vm_compute. Qed.

Lemma foldl_lines {A} (line : Z → A → str) (h : nat → Z) (l : list A) msg :
  foldl (λ msg '(i, x), msg ++ line i x) msg (imap (λ i x, (h i, x)) l)
  = msg ++ concat (imap (λ i x, line (h i) x) l).
Proof.
  revert h msg. induction l as [|x l IH]; intros h msg; cbn.
  - by rewrite app_nil_r.
  - rewrite (IH (h ∘ S)). by rewrite <- app_assoc.
Qed.

(** ** The handlers against arbitrary collaborators *)

Section Commands.
Context `{Runtime} {W : Type} (env : Env W).

(** C7: a remove-tag index that is not a digit string is answered with the
    usage prompt at once; the handler calls nothing, [remove_random_tag]
    included, and leaves the world, the tag lists in it too, as it was. *)
Theorem del_rejects_non_digit_index (w : W) event index :
  isdigit index = false →
  let r := run env (PixivSearchPlugin.pixiv_random_del event index) w in
  replies r = [DEL_PROMPT] ∧ trace r = [] ∧ final r = w
  ∧ outcome r = inr tt.
Proof.
  intros Hd. unfold PixivSearchPlugin.pixiv_random_del, pixiv_random_del.
  rewrite run_forward, Hd. cbn. done.
Qed.

(** C4: suspend and resume ask the store for the status first.  Without a
    configuration both answer that there is none; suspend on a suspended
    chat and resume on a running chat answer that the chat is already in
    that state.  In all these cases the status query is the only call
    made: neither [suspend_random_search] or [resume_random_search] nor
    the scheduling core is invoked. *)
Theorem suspend_resume_reject_redundant (w w' : W) event
        (has_config is_suspended : bool) :
  let chat_id := chat_id_of event in
  let status := GetRandomSearchStatus chat_id in
  env status w = ((has_config, is_suspended), w') →
  let rs := run env (PixivSearchPlugin.pixiv_random_suspend event) w in
  let rr := run env (PixivSearchPlugin.pixiv_random_resume event) w in
  head (calls rs) = Some status
  ∧ head (calls rr) = Some status
  ∧ (has_config = false →
     one_call status (has_config, is_suspended) w' NO_CONFIG rs
     ∧ one_call status (has_config, is_suspended) w' NO_CONFIG rr)
  ∧ (has_config = true → is_suspended = true →
     one_call status (has_config, is_suspended) w' ALREADY_SUSPENDED rs)
  ∧ (has_config = true → is_suspended = false →
     one_call status (has_config, is_suspended) w' ALREADY_RUNNING rr).
Proof.
  intros chat_id status Hst rs rr. subst rs rr status.
  unfold PixivSearchPlugin.pixiv_random_suspend, pixiv_random_suspend,
    PixivSearchPlugin.pixiv_random_resume, pixiv_random_resume,
    one_call, calls.
  rewrite !run_forward. fold chat_id. cbn. rewrite Hst.
  repeat split; intros; subst; cbn; done.
Qed.

(** X4: Suspending a configured chat that is not suspended: the store is asked
    to set the flag, its message is the reply, and the core is told if and
    only if the store succeeded. *)
Lemma suspend_goes_through (w w1 w2 : W) event ok message :
  let chat_id := chat_id_of event in
  env (GetRandomSearchStatus chat_id) w = ((true, false), w1) →
  env (SuspendRandomSearch chat_id) w1 = ((ok, message), w2) →
  let r := run env (PixivSearchPlugin.pixiv_random_suspend event) w in
  replies r = [message]
  ∧ calls r
    = GetRandomSearchStatus chat_id :: SuspendRandomSearch chat_id
      :: (if ok then [SuspendGroupSearch chat_id] else []).
Proof.
  intros chat_id Hst Hs r. subst r.
  unfold PixivSearchPlugin.pixiv_random_suspend, pixiv_random_suspend, calls.
  rewrite run_forward. fold chat_id. cbn. rewrite Hst. cbn. rewrite Hs.
  destruct ok; cbn; [|done].
  by destruct (env (SuspendGroupSearch chat_id) w2).
Qed.

(** X5: Resuming a configured chat that is suspended: the store is asked to
    clear the flag, its message is the reply, and the core is told if and
    only if the store succeeded. *)
Lemma resume_goes_through (w w1 w2 : W) event ok message :
  let chat_id := chat_id_of event in
  env (GetRandomSearchStatus chat_id) w = ((true, true), w1) →
  env (ResumeRandomSearch chat_id) w1 = ((ok, message), w2) →
  let r := run env (PixivSearchPlugin.pixiv_random_resume event) w in
  replies r = [message]
  ∧ calls r
    = GetRandomSearchStatus chat_id :: ResumeRandomSearch chat_id
      :: (if ok then [ResumeGroupSearch chat_id] else []).
Proof.
  intros chat_id Hst Hs r. subst r.
  unfold PixivSearchPlugin.pixiv_random_resume, pixiv_random_resume, calls.
  rewrite run_forward. fold chat_id. cbn. rewrite Hst. cbn. rewrite Hs.
  destruct ok; cbn; [|done].
  by destruct (env (ResumeGroupSearch chat_id) w2).
Qed.

(** C6: the add handler never raises.  If the stripped text is empty it
    answers with the prompt and calls nothing; if the validator rejects
    the stripped text it answers with the validator's error message and
    the validator is the only call; otherwise it calls [add_random_tag]
    with the chat, the session and the stripped text, and answers with
    the status string that call returned. *)
Theorem add_validates_then_stores (w : W) event tags :
  let cleaned := strip tags in
  let validate := ValidateAndProcessTags cleaned in
  let add :=
    AddRandomTag (chat_id_of event) (unified_msg_origin event) cleaned in
  let r := run env (PixivSearchPlugin.pixiv_random_add event tags) w in
  outcome r = inr tt
  ∧ (cleaned = [] →
     replies r = [ADD_PROMPT] ∧ trace r = [] ∧ final r = w)
  ∧ (cleaned ≠ [] → ∀ result w1, env validate w = (result, w1) →
     (success result = false →
      replies r = [error_message result]
      ∧ trace r = [Invoked validate result] ∧ final r = w1)
     ∧ (success result = true → ∀ ok message w2,
        env add w1 = ((ok, message), w2) →
        replies r = [message]
        ∧ trace r = [Invoked validate result; Invoked add (ok, message)]
        ∧ final r = w2)).
Proof.
  intros cleaned validate add r. subst r validate add.
  unfold PixivSearchPlugin.pixiv_random_add, pixiv_random_add.
  rewrite run_forward. fold cleaned.
  destruct cleaned as [|c cleaned'] eqn:Hc; cbn.
  { repeat split; done. }
  destruct (env (ValidateAndProcessTags (c :: cleaned')) w)
    as [result w1] eqn:Hv.
  split.
  { destruct (success result); cbn; [|done].
    by destruct (env (AddRandomTag _ _ _) w1) as [[ok message] w2]. }
  split; [done|]. intros _ result' w1' [= <- <-].
  split; intros Hs; rewrite Hs; cbn; [done|].
  intros ok message w2 Ha. by rewrite Ha.
Qed.

(** The force handler. *)
Lemma force_without_config (w w' : W) event is_suspended :
  let status := GetRandomSearchStatus (chat_id_of event) in
  env status w = ((false, is_suspended), w') →
  one_call status (false, is_suspended) w' NO_CONFIG
           (run env (PixivSearchPlugin.pixiv_random_force event) w).
Proof.
  intros status Hst. subst status.
  unfold PixivSearchPlugin.pixiv_random_force, pixiv_random_force, one_call.
  rewrite run_forward. cbn. rewrite Hst. done.
Qed.

Lemma force_with_config (w w' w'' : W) event is_suspended ok :
  let status := GetRandomSearchStatus (chat_id_of event) in
  let force := ForceExecuteGroup (chat_id_of event) in
  env status w = ((true, is_suspended), w') →
  env force w' = (ok, w'') →
  let r := run env (PixivSearchPlugin.pixiv_random_force event) w in
  replies r = [if ok then FORCE_QUEUED else FORCE_BUSY]
  ∧ trace r = [Invoked status (true, is_suspended); Invoked force ok]
  ∧ final r = w'' ∧ outcome r = inr tt.
Proof.
  intros status force Hst Hf. subst status force.
  unfold PixivSearchPlugin.pixiv_random_force, pixiv_random_force.
  rewrite run_forward. cbn. rewrite Hst. cbn. rewrite Hf.
  by destruct ok.
Qed.

(** The list handler. *)
Lemma list_renders (w w' : W) event args tags :
  let query := GetRandomTags (chat_id_of event) in
  env query w = (tags, w') →
  one_call query tags w'
           match tags with
           | [] => NO_TAGS
           | _ => LIST_HEADER ++ concat (imap listing_line (tag <$> tags))
           end
           (run env (PixivSearchPlugin.pixiv_random_list event args) w).
Proof.
  intros query Hq. subst query.
  unfold PixivSearchPlugin.pixiv_random_list, pixiv_random_list, one_call.
  rewrite run_forward. cbn. rewrite Hq.
  destruct tags as [|e tags]; [done|].
  rewrite bool_decide_eq_true_2 by done. cbn [negb run replies trace].
  unfold enumerate.
  rewrite (foldl_lines
             (λ i e, format_int (i + 1) ++ text ". " ++ tag e ++ nl)).
  by rewrite imap_fmap.
Qed.

(** The status handler. *)
Lemma status_renders (w w' : W) event status :
  env GetQueueStatus w = (status, w') →
  one_call GetQueueStatus status w' (status_text status)
           (run env (PixivSearchPlugin.pixiv_random_status event) w).
Proof.
  intros Hq.
  unfold PixivSearchPlugin.pixiv_random_status, pixiv_random_status, one_call.
  rewrite run_forward. cbn. rewrite Hq. cbn.
  split; [|done]. f_equal. unfold status_text, len.
  destruct (active_groups status) as [|g gs] eqn:Hg.
  - rewrite bool_decide_eq_false_2 by (by intros []).
    by rewrite <- !app_assoc.
  - rewrite bool_decide_eq_true_2 by done.
    by rewrite <- !app_assoc.
Qed.

(** Every call of every command is about the chat of the event, or about
    no chat. *)
Lemma dispatch_targets cmd event :
  targets_only (chat_id_of event) (dispatch cmd event).
Proof.
  destruct cmd; cbn [dispatch];
    unfold PixivSearchPlugin.pixiv_random_add,
      PixivSearchPlugin.pixiv_random_del,
      PixivSearchPlugin.pixiv_random_list,
      PixivSearchPlugin.pixiv_random_suspend,
      PixivSearchPlugin.pixiv_random_resume,
      PixivSearchPlugin.pixiv_random_status,
      PixivSearchPlugin.pixiv_random_force;
    apply targets_only_forward;
    unfold pixiv_random_add, pixiv_random_del, pixiv_random_list,
      pixiv_random_suspend, pixiv_random_resume, pixiv_random_status,
      pixiv_random_force, targets.
  - destruct (truthy (strip tags)); cbn; [|done].
    split; [by left|]. intros [[] msg]; cbn; [|done].
    split; [by right|]. by intros [ok m].
  - destruct (isdigit index); cbn; [|done].
    destruct (int_ index); cbn; [done|].
    split; [by right|]. by intros [ok m].
  - cbn. split; [by right|]. intros tags.
    by destruct (bool_decide (tags ≠ [])).
  - cbn. split; [by right|]. intros [[] []]; cbn; try done.
    split; [by right|]. intros [[] m]; cbn; [|done].
    split; [by right|]. done.
  - cbn. split; [by right|]. intros [[] []]; cbn; try done.
    split; [by right|]. intros [[] m]; cbn; [|done].
    split; [by right|]. done.
  - cbn. split; [by left|]. done.
  - cbn. split; [by right|]. intros [[] s]; cbn; [|done].
    split; [by right|]. by intros [].
Qed.

End Commands.

(** ** The tag store *)

Section StoreFacts.
Context (wording : Database.Wording).
Implicit Type db : gmap str Database.ChatSearchConfig.

Lemma with_db_same (w : World) : with_db (db w) w = w.
Proof. by destruct w. Qed.

Lemma with_service_same (w : World) : with_service (service w) w = w.
Proof. by destruct w. Qed.

Lemma get_random_tags_length chat_id db :
  length (tag <$> Database.get_random_tags chat_id db)
  = match db !! chat_id with
    | Some cfg => length (Database.tags cfg)
    | None => 0%nat
    end.
Proof.
  unfold Database.get_random_tags. destruct (db !! chat_id); [|done].
  by rewrite !length_fmap.
Qed.

Lemma get_random_tags_stored chat_id db cfg :
  db !! chat_id = Some cfg →
  tag <$> Database.get_random_tags chat_id db = Database.tags cfg.
Proof.
  unfold Database.get_random_tags. intros ->.
  rewrite <- list_fmap_compose. apply list_fmap_id.
Qed.

(** An index that is negative or not below the length is refused and the
    store stays as it is. *)
Lemma remove_out_of_range chat_id idx db :
  idx < 0
  ∨ Z.of_nat (length (tag <$> Database.get_random_tags chat_id db)) ≤ idx →
  Database.remove_random_tag wording chat_id idx db
  = ((false, Database.index_out_of_range wording), db).
Proof.
  rewrite get_random_tags_length. unfold Database.remove_random_tag.
  destruct (db !! chat_id) as [cfg|]; [|done].
  intros Hidx. by rewrite bool_decide_eq_true_2.
Qed.

(** Index 0 removes the first stored tag and keeps the others in order. *)
Lemma remove_first chat_id db first rest :
  tag <$> Database.get_random_tags chat_id db = first :: rest →
  ∃ db', Database.remove_random_tag wording chat_id 0 db
         = ((true, Database.tag_removed wording), db')
         ∧ tag <$> Database.get_random_tags chat_id db' = rest.
Proof.
  unfold Database.remove_random_tag.
  destruct (db !! chat_id) as [cfg|] eqn:Hcfg.
  - rewrite (get_random_tags_stored _ _ _ Hcfg). intros Htags.
    rewrite Htags. rewrite bool_decide_eq_false_2 by (cbn; lia).
    eexists. split; [done|].
    erewrite get_random_tags_stored by apply lookup_insert_eq. done.
  - unfold Database.get_random_tags. by rewrite Hcfg.
Qed.

(** A chat has a configuration exactly if tags are stored for it. *)
Lemma has_config_stored chat_id db :
  (Database.get_random_search_status chat_id db).1
  = bool_decide (Database.get_random_tags chat_id db ≠ []).
Proof.
  unfold Database.get_random_search_status, Database.get_random_tags.
  destruct (db !! chat_id) as [cfg|]; [|done].
  destruct (Database.tags cfg); [done|].
  by repeat case_bool_decide.
Qed.

End StoreFacts.

(** ** The scheduling core *)

Section CoreFacts.
Import RandomSearchService.

Lemma force_busy (s : t) chat_id :
  Queued s chat_id ∨ Executing s chat_id →
  force_execute_group chat_id s = (false, s).
Proof.
  intros Hbusy. unfold force_execute_group.
  by rewrite bool_decide_eq_true_2.
Qed.

Lemma force_idle (s : t) chat_id :
  ¬ Queued s chat_id → ¬ Executing s chat_id →
  force_execute_group chat_id s
  = (true, with_queue (queue s ++ [chat_id]) s).
Proof.
  intros Hq He. unfold force_execute_group.
  rewrite bool_decide_eq_false_2; [done|]. by intros [|].
Qed.

(** What a tick appends to the queue was configured, not suspended and not
    queued. *)
Lemma tick_appends_due (now : Z) db (s : t) :
  ∃ added,
    queue (tick now db s) = queue s ++ added
    ∧ (∀ chat_id, chat_id ∈ added →
         Database.get_random_search_status chat_id db = (true, false)
         ∧ (chat_id ∉ suspended_groups s) ∧ (chat_id ∉ queue s)).
Proof.
  eexists. split; [reflexivity|].
  intros chat_id [Hdue _]%list_elem_of_filter.
  unfold due in Hdue.
  apply andb_prop in Hdue as [[[Hflag Hs]%andb_prop _]%andb_prop Hq].
  repeat split; by eapply bool_decide_eq_true.
Qed.

Lemma snapshot_reads_lock_keys flags (s : t) :
  dom flags = dom (locks s) →
  status_text (get_queue_status (with_lock_flags flags s))
  = status_text (get_queue_status s).
Proof.
  intros Hdom. unfold status_text, get_queue_status, with_lock_flags. cbn.
  by rewrite <- !size_dom, Hdom.
Qed.
End CoreFacts.

(** ** Digit strings *)

Section Digits.
Context `{Runtime}.

Lemma isdigit_one : isdigit (text "1") = true.
Proof. reflexivity. Qed.

Lemma int_one : int_ (text "1") = inr 1.
Proof. reflexivity. Qed.

Lemma isdigit_zero : isdigit (text "0") = true.
Proof. reflexivity. Qed.

Lemma int_zero : int_ (text "0") = inr 0.
Proof. reflexivity. Qed.

(** A string of the digits 0 to 9 is a digit string, and [int] converts it
    unless it is longer than the interpreter allows. *)
Lemma decimal_digits_ascii (s : str) acc :
  Forall (λ c, 48 ≤ c ≤ 57)%N s → 0 ≤ acc →
  ∃ n, decimal_digits acc s = Some n ∧ 0 ≤ n.
Proof.
  intros Hs. revert acc.
  induction Hs as [|c s Hc _ IH]; intros acc Hacc; cbn.
  - by exists acc.
  - unfold decimal_value.
    replace (c <? 128)%N with true by (symmetry; apply N.ltb_lt; lia).
    replace ((48 <=? c)%N && (c <=? 57)%N) with true
      by (symmetry; apply andb_true_intro; split; apply N.leb_le; lia).
    apply IH. lia.
Qed.

Lemma isdigit_ascii (s : str) :
  s ≠ [] → Forall (λ c, 48 ≤ c ≤ 57)%N s → isdigit s = true.
Proof.
  intros Hne Hs. unfold isdigit. apply andb_true_intro. split.
  - by destruct s.
  - clear Hne. induction Hs as [|c s Hc _ IH]; [done|]. cbn.
    rewrite IH, andb_true_r. unfold is_digit.
    replace (c <? 128)%N with true by (symmetry; apply N.ltb_lt; lia).
    apply andb_true_intro; split; apply N.leb_le; lia.
Qed.

Lemma int_ascii (s : str) :
  Forall (λ c, 48 ≤ c ≤ 57)%N s → (length s ≤ 640)%nat →
  ∃ n, int_ s = inr n ∧ 0 ≤ n.
Proof.
  intros Hs Hlen. unfold int_.
  rewrite bool_decide_eq_false_2 by lia.
  destruct (decimal_digits_ascii s 0 Hs) as (n & -> & Hn); [done|].
  by exists n.
Qed.
End Digits.

(** ** The handlers against the store and the core *)

Section StoreAndCore.
Context `{Runtime} (validator : str → TagResult) (wording : Database.Wording).

Local Abbreviation env := (collaborators validator wording).

Lemma del_run (w : World) event index n :
  isdigit index = true → int_ index = inr n →
  let chat_id := chat_id_of event in
  let removed :=
    Database.remove_random_tag wording chat_id (n - 1) (db w) in
  let r := run env (PixivSearchPlugin.pixiv_random_del event index) w in
  replies r = [removed.1.2]
  ∧ trace r = [Invoked (RemoveRandomTag chat_id (n - 1)) removed.1]
  ∧ final r = with_db removed.2 w ∧ outcome r = inr tt.
Proof.
  intros Hd Hn chat_id removed r. subst r.
  unfold PixivSearchPlugin.pixiv_random_del, pixiv_random_del.
  rewrite run_forward, Hd, Hn. cbn. fold chat_id. fold removed.
  by destruct removed as [[ok message] d].
Qed.

(** Indices that [int] converts: "1" removes the first element of the
    stored list; 0, or a number greater than the length of the list, is
    answered with the store's failure ([success] false) and the store, the
    list in it too, is left unchanged. *)
Theorem del_index_translation (w : World) event :
  let chat_id := chat_id_of event in
  let del index :=
    run env (PixivSearchPlugin.pixiv_random_del event index) w in
  let failure := Database.index_out_of_range wording in
  (∀ first rest, stored_tags chat_id w = first :: rest →
     replies (del (text "1")) = [Database.tag_removed wording]
     ∧ trace (del (text "1"))
       = [Invoked (RemoveRandomTag chat_id 0)
                  (true, Database.tag_removed wording)]
     ∧ stored_tags chat_id (final (del (text "1"))) = rest)
  ∧ one_call (RemoveRandomTag chat_id (-1)) (false, failure) w failure
             (del (text "0"))
  ∧ (∀ index n, isdigit index = true → int_ index = inr n →
     n = 0 ∨ Z.of_nat (length (stored_tags chat_id w)) < n →
     one_call (RemoveRandomTag chat_id (n - 1)) (false, failure) w failure
              (del index)).
Proof.
  intros chat_id del failure.
  assert (∀ index n, isdigit index = true → int_ index = inr n →
     n = 0 ∨ Z.of_nat (length (stored_tags chat_id w)) < n →
     one_call (RemoveRandomTag chat_id (n - 1)) (false, failure) w failure
              (del index)) as Hfail.
  { intros index n Hd Hn Hrange.
    destruct (del_run w event index n Hd Hn) as (Hr & Ht & Hf & Ho).
    fold chat_id in Hr, Ht, Hf.
    rewrite remove_out_of_range in Hr, Ht, Hf
      by (unfold stored_tags in Hrange; lia).
    cbn in Hr, Ht, Hf. rewrite with_db_same in Hf. by unfold one_call. }
  split; [|split; [|done]].
  - intros first rest Hstored.
    destruct (del_run w event (text "1") 1 isdigit_one int_one)
      as (Hr & Ht & Hf & _).
    fold chat_id in Hr, Ht, Hf. change (1 - 1) with 0 in Hr, Ht, Hf.
    destruct (remove_first wording chat_id (db w) first rest Hstored)
      as (db' & Hrm & Hrest).
    rewrite Hrm in Hr, Ht, Hf. cbn in Hr, Ht, Hf.
    unfold del. rewrite Hr, Ht, Hf. done.
  - apply (Hfail (text "0") 0 isdigit_zero int_zero). by left.
Qed.

(** C8: listing is read-only and keeps the stored order.  The handler only
    calls [get_random_tags] and leaves the world as it was; a chat
    without configuration gets the no-tags reply, and otherwise the reply
    is the header followed by one line per stored tag, in stored order,
    the tag at position [i] (from 0) numbered [i + 1]. *)
Theorem list_is_read_only_and_ordered (w : World) event args :
  let chat_id := chat_id_of event in
  let r := run env (PixivSearchPlugin.pixiv_random_list event args) w in
  final r = w ∧ calls r = [GetRandomTags chat_id] ∧ outcome r = inr tt
  ∧ ((Database.get_random_search_status chat_id (db w)).1 = false →
     stored_tags chat_id w = [] ∧ replies r = [NO_TAGS])
  ∧ ((Database.get_random_search_status chat_id (db w)).1 = true →
     replies r
     = [LIST_HEADER ++ concat (imap listing_line (stored_tags chat_id w))]).
Proof.
  intros chat_id r.
  destruct (list_renders env w w event args
              (Database.get_random_tags chat_id (db w)) eq_refl)
    as (Hr & Ht & Hf & Ho).
  fold chat_id in Ht. fold r in Hr, Ht, Hf, Ho.
  unfold calls. rewrite Ht.
  split; [done|]. split; [done|]. split; [done|].
  rewrite has_config_stored. unfold stored_tags. rewrite Hr.
  destruct (Database.get_random_tags chat_id (db w)) as [|e tags].
  - split; [done|]. intros Hc. by apply bool_decide_eq_true in Hc.
  - split; [|done]. intros Hc. apply bool_decide_eq_false in Hc.
    by destruct Hc.
Qed.

(** C3: the core refuses a chat that is queued or executing and leaves
    its queue alone.  The handler answers with the busy text exactly when
    [force_execute_group] returned false and with the queued text exactly
    when it returned true; without a configuration it does not call
    [force_execute_group] and answers with neither.  Put together, forcing
    a busy chat is answered with the busy text and changes nothing. *)
Theorem force_reports_busy_or_queued (w : World) event :
  let chat_id := chat_id_of event in
  let status := GetRandomSearchStatus chat_id in
  let force := ForceExecuteGroup chat_id in
  (∀ s c, RandomSearchService.Queued s c ∨ RandomSearchService.Executing s c →
     RandomSearchService.force_execute_group c s = (false, s))
  ∧ (∀ W' (env' : Env W') (w0 w1 w2 : W') is_suspended ok,
     env' status w0 = ((true, is_suspended), w1) →
     env' force w1 = (ok, w2) →
     let r := run env' (PixivSearchPlugin.pixiv_random_force event) w0 in
     trace r = [Invoked status (true, is_suspended); Invoked force ok]
     ∧ (replies r = [FORCE_BUSY] ↔ ok = false)
     ∧ (replies r = [FORCE_QUEUED] ↔ ok = true))
  ∧ (∀ W' (env' : Env W') (w0 w1 : W') is_suspended,
     env' status w0 = ((false, is_suspended), w1) →
     let r := run env' (PixivSearchPlugin.pixiv_random_force event) w0 in
     calls r = [status]
     ∧ replies r ≠ [FORCE_BUSY] ∧ replies r ≠ [FORCE_QUEUED])
  ∧ ((Database.get_random_search_status chat_id (db w)).1 = true →
     RandomSearchService.Queued (service w) chat_id
     ∨ RandomSearchService.Executing (service w) chat_id →
     let r := run env (PixivSearchPlugin.pixiv_random_force event) w in
     replies r = [FORCE_BUSY] ∧ final r = w).
Proof.
  intros chat_id status force. split; [apply force_busy|]. split; [|split].
  - intros W' env' w0 w1 w2 is_suspended ok Hst Hf r.
    destruct (force_with_config env' w0 w1 w2 event is_suspended ok Hst Hf)
      as (Hr & Ht & _). fold r in Hr, Ht. rewrite Hr. split; [exact Ht|].
    destruct ok; split; split.
    + intros Heq%singleton_inj. destruct (force_texts_differ Heq).
    + intros [=].
    + reflexivity.
    + reflexivity.
    + reflexivity.
    + reflexivity.
    + intros Heq%singleton_inj. symmetry in Heq.
      destruct (force_texts_differ Heq).
    + intros [=].
  - intros W' env' w0 w1 is_suspended Hst r.
    destruct (force_without_config env' w0 w1 event is_suspended Hst)
      as (Hr & Ht & _). fold r in Hr, Ht.
    unfold calls. rewrite Hr, Ht. split; [done|].
    split; intros Heq%singleton_inj.
    + destruct (no_config_is_not_busy Heq).
    + destruct (no_config_is_not_queued Heq).
  - intros Hcfg Hbusy r.
    destruct (Database.get_random_search_status chat_id (db w))
      as [has_config is_suspended] eqn:Hst.
    cbn in Hcfg. subst has_config.
    destruct (force_with_config env w w w event is_suspended false)
      as (Hr & _ & Hf & _).
    + cbn. fold chat_id. by rewrite Hst.
    + cbn. fold chat_id. rewrite force_busy by done.
      by rewrite with_service_same.
    + done.
Qed.

(** C5: what a tick adds to the queue is never a chat whose suspended
    flag is set.  The force handler does not look at the flag: whenever the
    chat has a configuration its calls are the status query followed by
    [force_execute_group].  Put together, a suspended chat that is idle is
    left out by the tick and put in the queue by the force command. *)
Theorem tick_skips_suspended_force_does_not (w : World) event :
  let chat_id := chat_id_of event in
  let status := GetRandomSearchStatus chat_id in
  (∀ now db s, ∃ added,
     RandomSearchService.queue (RandomSearchService.tick now db s)
     = RandomSearchService.queue s ++ added
     ∧ (∀ c, c ∈ added →
          (Database.get_random_search_status c db).2 = false
          ∧ (c ∉ RandomSearchService.suspended_groups s)))
  ∧ (∀ W' (env' : Env W') (w0 w1 : W') is_suspended,
     env' status w0 = ((true, is_suspended), w1) →
     calls (run env' (PixivSearchPlugin.pixiv_random_force event) w0)
     = [status; ForceExecuteGroup chat_id])
  ∧ (Database.get_random_search_status chat_id (db w) = (true, true) →
     ¬ RandomSearchService.Queued (service w) chat_id →
     ¬ RandomSearchService.Executing (service w) chat_id →
     let r := run env (PixivSearchPlugin.pixiv_random_force event) w in
     (∀ now, chat_id ∉ RandomSearchService.queue
                         (RandomSearchService.tick now (db w) (service w)))
     ∧ replies r = [FORCE_QUEUED]
     ∧ RandomSearchService.queue (service (final r))
       = RandomSearchService.queue (service w) ++ [chat_id]).
Proof.
  intros chat_id status. split; [|split].
  - intros now d s.
    destruct (tick_appends_due now d s) as (added & Hq & Hadded).
    exists added. split; [done|]. intros c Hc.
    destruct (Hadded c Hc) as (-> & Hs & _). done.
  - intros W' env' w0 w1 is_suspended Hst.
    destruct (env' (ForceExecuteGroup chat_id) w1) as [ok w2] eqn:Hf.
    destruct (force_with_config env' w0 w1 w2 event is_suspended ok Hst Hf)
      as (_ & Ht & _).
    unfold calls. by rewrite Ht.
  - intros Hst Hq He r. split.
    { intros now.
      destruct (tick_appends_due now (db w) (service w))
        as (added & -> & Hadded).
      intros [Hin | Hin]%elem_of_app; [done|].
      destruct (Hadded chat_id Hin) as (Hflag & _).
      rewrite Hst in Hflag. by simplify_eq. }
    destruct (force_with_config env w w
                (with_service
                   (RandomSearchService.with_queue
                      (RandomSearchService.queue (service w) ++ [chat_id])
                      (service w)) w)
                event true true)
      as (Hr & _ & Hf & _).
    + cbn. fold chat_id. by rewrite Hst.
    + cbn. fold chat_id. by rewrite force_idle.
    + fold r in Hr, Hf. by rewrite Hr, Hf.
Qed.

(** C9: the snapshot has the four fields: the size of the queue, whether
    the queue processor runs, the chats that are active, and the locks
    with their held flags.  The status handler makes the one call that
    takes the snapshot and renders the four; it waits for no lock: the
    call is a plain call and nothing is awaited, the handler returns in
    every state, changes nothing, and its reply does not depend on which
    locks are held. *)
Theorem status_renders_snapshot (w : World) event :
  let core := service w in
  let status := RandomSearchService.get_queue_status core in
  let r := run env (PixivSearchPlugin.pixiv_random_status event) w in
  queue_size status = Z.of_nat (length (RandomSearchService.queue core))
  ∧ (is_queue_processor_running status = true
     ↔ RandomSearchService.queue_processor core
       = RandomSearchService.Running)
  ∧ (∀ c, c ∈ active_groups status
          ↔ is_Some (RandomSearchService.next_fire_at core !! c)
            ∧ c ∉ RandomSearchService.suspended_groups core)
  ∧ (∀ c, execution_locks status !! c = Some true
          ↔ RandomSearchService.Executing core c)
  ∧ one_call GetQueueStatus status w (status_text status) r
  ∧ Forall (λ c, awaited c = false) (calls r)
  ∧ (∀ flags, dom flags = dom (RandomSearchService.locks core) →
     replies (run env (PixivSearchPlugin.pixiv_random_status event)
                  (with_service (with_lock_flags flags core) w))
     = replies r).
Proof.
  intros core status r.
  split; [done|]. split; [apply bool_decide_eq_true|].
  split.
  { intros c. unfold status. cbn.
    rewrite elem_of_elements, elem_of_difference, elem_of_dom. done. }
  split; [done|].
  assert (∀ w0, one_call GetQueueStatus
                  (RandomSearchService.get_queue_status (service w0)) w0
                  (status_text
                     (RandomSearchService.get_queue_status (service w0)))
                  (run env (PixivSearchPlugin.pixiv_random_status event) w0))
    as Hany by (intros w0; by apply status_renders).
  split; [apply Hany|].
  split.
  { destruct (Hany w) as (_ & Ht & _). unfold calls. fold r in Ht.
    rewrite Ht. by repeat constructor. }
  intros flags Hdom. subst r.
  destruct (Hany w) as (-> & _).
  destruct (Hany (with_service (with_lock_flags flags core) w)) as (-> & _).
  cbn. by rewrite snapshot_reads_lock_keys.
Qed.

End StoreAndCore.

(** ** The chat a command is about *)

Section ChatIdentity.
Context `{Runtime}.

Lemma chat_id_of_group event g :
  get_group_id event = Some g → g ≠ [] → chat_id_of event = g.
Proof. unfold chat_id_of, or_. intros -> Hg. by destruct g. Qed.

Lemma chat_id_of_sender event :
  get_group_id event = None ∨ get_group_id event = Some [] →
  chat_id_of event = get_sender_id event.
Proof. unfold chat_id_of, or_. by intros [-> | ->]. Qed.

(** A command reads nothing of the event but the chat and the session. *)
Lemma dispatch_same_chat cmd e1 e2 :
  chat_id_of e1 = chat_id_of e2 →
  unified_msg_origin e1 = unified_msg_origin e2 →
  dispatch cmd e1 = dispatch cmd e2.
Proof.
  intros Hchat Horigin.
  destruct cmd; cbn [dispatch];
    unfold PixivSearchPlugin.pixiv_random_add,
      PixivSearchPlugin.pixiv_random_del,
      PixivSearchPlugin.pixiv_random_list,
      PixivSearchPlugin.pixiv_random_suspend,
      PixivSearchPlugin.pixiv_random_resume,
      PixivSearchPlugin.pixiv_random_status,
      PixivSearchPlugin.pixiv_random_force,
      pixiv_random_add, pixiv_random_del, pixiv_random_list,
      pixiv_random_suspend, pixiv_random_resume, pixiv_random_status,
      pixiv_random_force;
    by rewrite ?Hchat, ?Horigin.
Qed.

Lemma session_targets {W} (env : Env W) (w : W) g inputs :
  g ≠ [] → Forall (λ i, get_group_id i.2 = Some g) inputs →
  Forall (λ r, Forall (targets g) (calls r)) (session env inputs w).
Proof.
  intros Hg Hinputs. revert w.
  induction Hinputs as [|[cmd event] inputs Hevent _ IH]; intros w; cbn.
  - constructor.
  - constructor; [|apply IH].
    rewrite <- (chat_id_of_group event g Hevent Hg).
    apply targets_only_run, dispatch_targets.
Qed.

Lemma session_same_chat {W} (env : Env W) (w : W) inputs1 inputs2 :
  Forall2 (λ i j, i.1 = j.1 ∧ chat_id_of i.2 = chat_id_of j.2
                  ∧ unified_msg_origin i.2 = unified_msg_origin j.2)
          inputs1 inputs2 →
  session env inputs1 w = session env inputs2 w.
Proof.
  intros Hsame. revert w.
  induction Hsame as [|[c1 e1] [c2 e2] l1 l2 (Hc & Hchat & Ho) _ IH];
    intros w; cbn in *; [done|].
  subst c2. rewrite (dispatch_same_chat c1 e1 e2 Hchat Ho). by rewrite IH.
Qed.

(** C10: the chat of an event is its group id if it has one and the
    sender id otherwise, and every call of every random-search command
    that is about a chat is about that chat.  So the commands of the
    members of one group, in whatever order they arrive, are all about
    the configuration of the group, and who of the group sent a command
    makes no difference to what the commands do. *)
Theorem group_members_share_one_config :
  (∀ event g, get_group_id event = Some g → g ≠ [] →
     chat_id_of event = g)
  ∧ (∀ event, get_group_id event = None ∨ get_group_id event = Some [] →
     chat_id_of event = get_sender_id event)
  ∧ (∀ W (env : Env W) (w : W) cmd event,
     Forall (targets (chat_id_of event))
            (calls (run env (dispatch cmd event) w)))
  ∧ (∀ W (env : Env W) (w : W) g inputs,
     g ≠ [] → Forall (λ i, get_group_id i.2 = Some g) inputs →
     Forall (λ r, Forall (targets g) (calls r)) (session env inputs w))
  ∧ (∀ W (env : Env W) (w : W) g inputs1 inputs2,
     g ≠ [] →
     Forall2 (λ i j, i.1 = j.1
                     ∧ get_group_id i.2 = Some g ∧ get_group_id j.2 = Some g
                     ∧ unified_msg_origin i.2 = unified_msg_origin j.2)
             inputs1 inputs2 →
     session env inputs1 w = session env inputs2 w).
Proof.
  split; [apply chat_id_of_group|]. split; [apply chat_id_of_sender|].
  split; [|split].
  - intros W env w cmd event. apply targets_only_run, dispatch_targets.
  - intros W env w g inputs. apply session_targets.
  - intros W env w g inputs1 inputs2 Hg Hsame.
    apply session_same_chat.
    eapply Forall2_impl; [exact Hsame|].
    intros i j (Hc & Hi & Hj & Ho). split; [done|]. split; [|done].
    by rewrite (chat_id_of_group _ g Hi Hg), (chat_id_of_group _ g Hj Hg).
Qed.

End ChatIdentity.

(** ** Shutdown *)

(** [terminate] does not touch the random search service. *)
Lemma terminate_keeps_random_search_service (self : PixivSearchPlugin.t) :
  PixivSearchPlugin.random_search_service (PixivSearchPlugin.terminate self).1
  = PixivSearchPlugin.random_search_service self.
Proof.
  unfold PixivSearchPlugin.terminate.
  destruct (PixivSearchPlugin.sub_service self);
    destruct (PixivSearchPlugin._refresh_task self) as [[[] ? []]|];
    destruct (PixivSearchPlugin._http_session self) as [[[]]|]; reflexivity.
Qed.

(** C2, as the code has it: [terminate] never touches the random search
    service.  After [__init__] has started the service, [terminate] stops
    the subscription service (if there is one) and logs, and that is all it
    does: the tick generator and the queue processor of the random search
    service are running after [terminate] as they were before. *)
Theorem terminate_leaves_random_search_running (subscription_enabled : bool) :
  let started := (PixivSearchPlugin.__init__ subscription_enabled).1 in
  let stopped := (PixivSearchPlugin.terminate started).1 in
  let acts := (PixivSearchPlugin.terminate started).2 in
  let core := PixivSearchPlugin.random_search_service in
  (∀ self, core (PixivSearchPlugin.terminate self).1 = core self)
  ∧ RandomSearchService.tick_generator (core started)
    = RandomSearchService.Running
  ∧ RandomSearchService.queue_processor (core started)
    = RandomSearchService.Running
  ∧ acts
    = [PixivSearchPlugin.LoggerInfo (text "Pixiv 搜索插件正在停用...")]
      ++ (if subscription_enabled
          then [PixivSearchPlugin.SubServiceStop] else [])
      ++ [PixivSearchPlugin.LoggerInfo (text "Pixiv 搜索插件已停用。")]
  ∧ PixivSearchPlugin.sub_service stopped
    = (if subscription_enabled
       then Some {| PixivSearchPlugin.polling := false |} else None)
  ∧ RandomSearchService.tick_generator (core stopped)
    = RandomSearchService.Running
  ∧ RandomSearchService.queue_processor (core stopped)
    = RandomSearchService.Running.
Proof.
  split; [apply terminate_keeps_random_search_service|].
  by destruct subscription_enabled.
Qed.

(** * Worked instances *)

Section Instances.
Import Example.
Local Existing Instance latin1.

(** The index "-1" is not a digit string. *)
Lemma del_rejects_non_digit_index_witness :
  isdigit (text "-1") = false
  ∧ replies (run env (PixivSearchPlugin.pixiv_random_del alice (text "-1"))
                 pets) = [DEL_PROMPT]
  ∧ trace (run env (PixivSearchPlugin.pixiv_random_del alice (text "-1"))
               pets) = []
  ∧ final (run env (PixivSearchPlugin.pixiv_random_del alice (text "-1"))
               pets) = pets
  ∧ outcome (run env (PixivSearchPlugin.pixiv_random_del alice (text "-1"))
                 pets) = inr tt.
Proof.
  split; [reflexivity|].
  apply (del_rejects_non_digit_index env pets alice (text "-1")).
  reflexivity.
Defined.

(** Suspend and resume without tags, suspend when suspended, resume when
    running. *)
Lemma suspend_resume_reject_redundant_witness :
  one_call (GetRandomSearchStatus g1) (false, false) no_tags NO_CONFIG
           (run env (PixivSearchPlugin.pixiv_random_suspend alice) no_tags)
  ∧ one_call (GetRandomSearchStatus g1) (false, false) no_tags NO_CONFIG
             (run env (PixivSearchPlugin.pixiv_random_resume alice) no_tags)
  ∧ one_call (GetRandomSearchStatus g1) (true, true) pets_suspended
             ALREADY_SUSPENDED
             (run env (PixivSearchPlugin.pixiv_random_suspend bob)
                  pets_suspended)
  ∧ one_call (GetRandomSearchStatus g1) (true, false) pets ALREADY_RUNNING
             (run env (PixivSearchPlugin.pixiv_random_resume bob) pets).
Proof.
  destruct (suspend_resume_reject_redundant
              env no_tags no_tags alice false false eq_refl)
    as (_ & _ & Hnone & _).
  destruct (suspend_resume_reject_redundant
              env pets_suspended pets_suspended bob true true eq_refl)
    as (_ & _ & _ & Hsuspended & _).
  destruct (suspend_resume_reject_redundant
              env pets pets bob true false eq_refl)
    as (_ & _ & _ & _ & Hrunning).
  destruct (Hnone eq_refl) as [Hs Hr].
  exact (conj Hs (conj Hr (conj (Hsuspended eq_refl eq_refl)
                                (Hrunning eq_refl eq_refl)))).
Defined.

(** Blank text, text the validator rejects, and a tag that is stored. *)
Lemma add_validates_then_stores_witness :
  (replies (run env (PixivSearchPlugin.pixiv_random_add carol (text "   "))
                pets) = [ADD_PROMPT]
   ∧ trace (run env (PixivSearchPlugin.pixiv_random_add carol (text "   "))
                pets) = []
   ∧ final (run env (PixivSearchPlugin.pixiv_random_add carol (text "   "))
                pets) = pets)
  ∧ replies (run env (PixivSearchPlugin.pixiv_random_add
                        carol (text "a" ++ nl ++ text "b")) pets)
    = [text "one line, please"]
  ∧ replies (run env (PixivSearchPlugin.pixiv_random_add
                        carol (text "  fox ")) pets)
    = [text "tag added"]
  ∧ calls (run env (PixivSearchPlugin.pixiv_random_add
                      carol (text "  fox ")) pets)
    = [ValidateAndProcessTags (text "fox");
       AddRandomTag (text "carol") (text "qq:FriendMessage:carol")
                    (text "fox")].
Proof.
  destruct (add_validates_then_stores env pets carol (text "   "))
    as (_ & Hblank & _).
  destruct (add_validates_then_stores
              env pets carol (text "a" ++ nl ++ text "b"))
    as (_ & _ & Hbad).
  destruct (add_validates_then_stores env pets carol (text "  fox "))
    as (_ & _ & Hgood).
  split; [exact (Hblank eq_refl)|].
  split.
  - refine (proj1 (proj1 (Hbad _ _ pets eq_refl) eq_refl)).
    by vm_compute.
  - assert (strip (text "  fox ") ≠ []) as Hne by (by vm_compute).
    destruct (proj2 (Hgood Hne _ pets eq_refl) eq_refl
                    true (text "tag added") _ eq_refl)
      as (Hr & Ht & _).
    split; [exact Hr|]. unfold calls. rewrite Ht. reflexivity.
Defined.

(** A superscript two passes [isdigit], but [int] does not convert it: the
    handler raises and neither replies nor calls the store. *)
Lemma del_superscript_index_raises :
  isdigit (text "²") = true
  ∧ replies (run env (PixivSearchPlugin.pixiv_random_del alice (text "²")) pets)
    = []
  ∧ trace (run env (PixivSearchPlugin.pixiv_random_del alice (text "²")) pets)
    = []
  ∧ outcome (run env (PixivSearchPlugin.pixiv_random_del alice (text "²"))
                 pets)
    = inl ValueError.
Proof. by vm_compute. Qed.

(** Index "1" removes [cat]; "0" and "3" are refused and change nothing. *)
Lemma del_index_translation_witness :
  (replies (run env (PixivSearchPlugin.pixiv_random_del alice (text "1")) pets)
   = [text "tag removed"]
   ∧ stored_tags g1
       (final (run env (PixivSearchPlugin.pixiv_random_del alice (text "1"))
                   pets))
     = [text "dog"])
  ∧ one_call (RemoveRandomTag g1 (-1)) (false, text "no such tag") pets
             (text "no such tag")
             (run env (PixivSearchPlugin.pixiv_random_del alice (text "0"))
                  pets)
  ∧ one_call (RemoveRandomTag g1 2) (false, text "no such tag") pets
             (text "no such tag")
             (run env (PixivSearchPlugin.pixiv_random_del alice (text "3"))
                  pets).
Proof.
  destruct (del_index_translation validator wording pets alice)
    as (Hone & Hzero & Hbig).
  destruct (Hone (text "cat") [text "dog"] eq_refl) as (Hr & _ & Hs).
  split; [exact (conj Hr Hs)|]. split; [exact Hzero|].
  apply (Hbig (text "3") 3); [reflexivity|reflexivity|].
  right. vm_compute. reflexivity.
Defined.

(** Two tags are listed as lines 1 and 2; no tags give the no-tags reply. *)
Lemma list_is_read_only_and_ordered_witness :
  replies (run env (PixivSearchPlugin.pixiv_random_list alice []) pets)
  = [LIST_HEADER ++ text "1. cat" ++ nl ++ text "2. dog" ++ nl]
  ∧ final (run env (PixivSearchPlugin.pixiv_random_list alice []) pets) = pets
  ∧ replies (run env (PixivSearchPlugin.pixiv_random_list bob []) no_tags)
    = [NO_TAGS].
Proof.
  destruct (list_is_read_only_and_ordered validator wording pets alice [])
    as (Hf & _ & _ & _ & Hsome).
  destruct (list_is_read_only_and_ordered validator wording no_tags bob [])
    as (_ & _ & _ & Hnone & _).
  split; [|split; [exact Hf|exact (proj2 (Hnone eq_refl))]].
  etransitivity; [exact (Hsome eq_refl)|]. vm_compute. reflexivity.
Defined.

(** Forcing a queued or an executing chat is refused; forcing an idle one
    is answered with the queued text. *)
Lemma force_reports_busy_or_queued_witness :
  (replies (run env (PixivSearchPlugin.pixiv_random_force alice) pets_queued)
   = [FORCE_BUSY]
   ∧ final (run env (PixivSearchPlugin.pixiv_random_force alice) pets_queued)
     = pets_queued)
  ∧ (replies (run env (PixivSearchPlugin.pixiv_random_force alice)
                  pets_executing)
     = [FORCE_BUSY]
     ∧ final (run env (PixivSearchPlugin.pixiv_random_force alice)
                  pets_executing)
       = pets_executing)
  ∧ replies (run env (PixivSearchPlugin.pixiv_random_force alice) pets)
    = [FORCE_QUEUED].
Proof.
  destruct (force_reports_busy_or_queued validator wording pets_queued alice)
    as (_ & _ & _ & Hqueued).
  destruct (force_reports_busy_or_queued validator wording pets_executing alice)
    as (_ & _ & _ & Hexecuting).
  destruct (force_reports_busy_or_queued validator wording pets alice)
    as (_ & Hhandler & _).
  split; [|split].
  - apply Hqueued; [reflexivity|]. left. vm_compute. left.
  - apply Hexecuting; [reflexivity|]. right. reflexivity.
  - refine (proj2 (proj2 (proj2 (Hhandler World env pets pets _ false true
                                          eq_refl eq_refl))) eq_refl).
Defined.

(** A tick leaves the suspended [g1] out although it is due; the force
    command puts it in the queue. *)
Lemma tick_skips_suspended_force_does_not_witness :
  (g1 ∉ RandomSearchService.queue
          (RandomSearchService.tick 1000 (db pets_suspended)
                                    (service pets_suspended)))
  ∧ calls (run env (PixivSearchPlugin.pixiv_random_force alice) pets_suspended)
    = [GetRandomSearchStatus g1; ForceExecuteGroup g1]
  ∧ RandomSearchService.queue
      (service (final (run env (PixivSearchPlugin.pixiv_random_force alice)
                           pets_suspended)))
    = [g1].
Proof.
  destruct (tick_skips_suspended_force_does_not
              validator wording pets_suspended alice)
    as (_ & Hcalls & Hforce).
  assert (¬ RandomSearchService.Queued (service pets_suspended) g1) as Hq.
  { vm_compute. by intros ?%elem_of_nil. }
  assert (¬ RandomSearchService.Executing (service pets_suspended) g1) as He.
  { vm_compute. by intros [=]. }
  destruct (Hforce eq_refl Hq He) as (Htick & _ & Hqueue).
  split; [exact (Htick 1000)|]. split; [|exact Hqueue].
  exact (Hcalls World env pets_suspended pets_suspended true eq_refl).
Defined.

(** The snapshot of a core in which [g1] is executing, and the same reply
    when the lock is free. *)
Lemma status_renders_snapshot_witness :
  one_call GetQueueStatus
           (RandomSearchService.get_queue_status (service pets_executing))
           pets_executing
           (status_text
              (RandomSearchService.get_queue_status (service pets_executing)))
           (run env (PixivSearchPlugin.pixiv_random_status alice)
                pets_executing)
  ∧ replies (run env (PixivSearchPlugin.pixiv_random_status alice)
                 (with_service
                    (with_lock_flags {[ g1 := false ]}
                                     (service pets_executing))
                    pets_executing))
    = replies (run env (PixivSearchPlugin.pixiv_random_status alice)
                   pets_executing).
Proof.
  destruct (status_renders_snapshot validator wording pets_executing alice)
    as (_ & _ & _ & _ & Hone & _ & Hflags).
  split; [exact Hone|]. apply Hflags. reflexivity.
Defined.

(** Alice and Bob of [g1] act on [g1]; Carol, who writes privately, on
    herself. *)
Lemma group_members_share_one_config_witness :
  chat_id_of alice = g1 ∧ chat_id_of bob = g1
  ∧ chat_id_of carol = text "carol"
  ∧ Forall (λ r, Forall (targets g1) (calls r))
           (session env [(PixivRandomAdd (text "fox"), alice);
                         (PixivRandomDel (text "1"), bob);
                         (PixivRandomSuspend, alice)] pets)
  ∧ session env [(PixivRandomAdd (text "fox"), alice);
                 (PixivRandomDel (text "1"), bob);
                 (PixivRandomSuspend, alice)] pets
    = session env [(PixivRandomAdd (text "fox"), bob);
                   (PixivRandomDel (text "1"), alice);
                   (PixivRandomSuspend, bob)] pets.
Proof.
  destruct group_members_share_one_config
    as (Hgroup & Hsender & _ & Htargets & Hsame).
  assert (g1 ≠ []) as Hg1 by (by vm_compute).
  split; [exact (Hgroup alice g1 eq_refl Hg1)|].
  split; [exact (Hgroup bob g1 eq_refl Hg1)|].
  split; [exact (Hsender carol (or_intror eq_refl))|].
  split.
  - apply Htargets; [exact Hg1|]. by repeat constructor.
  - apply (Hsame World env pets g1); [exact Hg1|]. by repeat constructor.
Defined.

End Instances.

(** * Further properties of the handlers *)

(** ** Blanks *)

Section Strip.
Context `{Runtime}.

Lemma lstrip_head (s : str) :
  match lstrip s with [] => True | c :: _ => is_space c = false end.
Proof.
  induction s as [|c s IH]; cbn; [done|].
  destruct (is_space c) eqn:Hc; [done|]. exact Hc.
Qed.

Lemma lstrip_fixed (s : str) :
  match s with [] => True | c :: _ => is_space c = false end →
  lstrip s = s.
Proof. destruct s as [|c s]; cbn; [done|]. by intros ->. Qed.

Lemma lstrip_snoc (s : str) c :
  is_space c = false → ∃ t, lstrip (s ++ [c]) = t ++ [c].
Proof.
  intros Hc. induction s as [|d s IH]; cbn.
  - rewrite Hc. by exists [].
  - destruct (is_space d); [done|]. by exists (d :: s).
Qed.

Lemma strip_idemp (s : str) : strip (strip s) = strip s.
Proof.
  unfold strip. pose proof (lstrip_head s) as Hhead.
  destruct (lstrip s) as [|c t]; [done|].
  cbn [rev]. destruct (lstrip_snoc (rev t) c Hhead) as (y & Hy).
  pose proof (lstrip_head (rev t ++ [c])) as Hy'. rewrite Hy in *.
  rewrite rev_app_distr. cbn [rev app].
  rewrite (lstrip_fixed (c :: rev y)) by done.
  cbn [rev]. rewrite rev_involutive.
  rewrite (lstrip_fixed (y ++ [c])) by done.
  by rewrite rev_app_distr.
Qed.

(** X1: The add handler strips its argument: text with blanks around it is
    handled exactly as the text without them. *)
Theorem add_ignores_surrounding_blanks event (tags : str) :
  pixiv_random_add event tags = pixiv_random_add event (strip tags)
  ∧ ∀ W (env : Env W) (w : W),
      run env (PixivSearchPlugin.pixiv_random_add event tags) w
      = run env (PixivSearchPlugin.pixiv_random_add event (strip tags)) w.
Proof.
  assert (pixiv_random_add event tags = pixiv_random_add event (strip tags))
    as Heq by (unfold pixiv_random_add; by rewrite strip_idemp).
  split; [exact Heq|]. intros W env w.
  unfold PixivSearchPlugin.pixiv_random_add. by rewrite Heq.
Qed.

End Strip.

(** ** Decimal numerals *)

Section Numerals.
Context `{Runtime}.

Lemma uint_digits_ascii (d : Decimal.uint) :
  Forall (λ c, 48 ≤ c ≤ 57)%N (uint_digits d).
Proof. induction d; cbn; constructor; (lia || done). Qed.

Lemma length_uint_digits (d : Decimal.uint) :
  length (uint_digits d) = Decimal.nb_digits d.
Proof. induction d; cbn; congruence. Qed.

Lemma decimal_digits_uint (d : Decimal.uint) (acc : Z) :
  decimal_digits acc (uint_digits d)
  = Some (acc * 10 ^ Z.of_N (DecimalPos.Unsigned.usize d)
          + Z.of_N (DecimalPos.Unsigned.of_lu (Decimal.rev d))).
Proof.
  revert acc.
  induction d as [|d IH|d IH|d IH|d IH|d IH|d IH|d IH|d IH|d IH|d IH];
    intros acc; cbn [uint_digits decimal_digits DecimalPos.Unsigned.usize];
    [cbn; f_equal; lia|..];
    change (Decimal.rev (?f d)) with (Decimal.revapp d (f Decimal.Nil));
    rewrite DecimalPos.Unsigned.of_lu_revapp;
    unfold decimal_value; cbn [N.ltb N.leb N.compare Pos.compare
                                 Pos.compare_cont andb N.sub];
    rewrite IH, N2Z.inj_succ, Z.pow_succ_r by lia;
    rewrite N2Z.inj_add, N2Z.inj_mul, N2Z.inj_pow;
    cbn [DecimalPos.Unsigned.of_lu]; f_equal;
    set (P := Z.of_N 10 ^ Z.of_N (DecimalPos.Unsigned.usize d));
    change (10 ^ Z.of_N (DecimalPos.Unsigned.usize d)) with P; cbn; lia.
Qed.

(** [int(str(n))] is [n], for [n] that is not negative and not longer
    than the interpreter converts. *)
Lemma int_format_int (n : Z) :
  0 ≤ n → (length (format_int n) ≤ 640)%nat →
  isdigit (format_int n) = true ∧ int_ (format_int n) = inr n.
Proof.
  intros Hn Hlen. unfold format_int in *.
  pose proof (DecimalZ.of_to n) as Hround.
  destruct (Z.to_int n) as [d|d] eqn:Hd.
  - assert (d ≠ Decimal.Nil) as Hnil.
    { destruct n as [|p|p]; cbn in Hd; simplify_eq; try done.
      apply DecimalPos.Unsigned.to_uint_nonnil. }
    split.
    + apply isdigit_ascii; [by destruct d|apply uint_digits_ascii].
    + unfold int_. rewrite bool_decide_eq_false_2 by lia.
      rewrite decimal_digits_uint. cbn in Hround.
      unfold Z.of_uint in Hround.
      rewrite DecimalPos.Unsigned.of_uint_alt in Hround.
      rewrite Hround. f_equal; lia.
  - destruct n; cbn in Hd; simplify_eq; lia.
Qed.

End Numerals.


(** ** Lists of lines *)

Lemma concat_imap_middle {A B} (f : nat → A → list B) (l : list A) i x :
  l !! i = Some x →
  concat (imap f l)
  = concat (imap f (take i l)) ++ f i x
    ++ concat (imap (λ j, f (S i + j)%nat) (drop (S i) l)).
Proof.
  intros Hi.
  transitivity (concat (imap f (take i l ++ x :: drop (S i) l))).
  { by rewrite take_drop_middle. }
  rewrite imap_app, concat_app. cbn [imap concat].
  rewrite length_take_le
    by (apply Nat.lt_le_incl; by eapply lookup_lt_Some).
  rewrite Nat.add_0_r. do 3 f_equal.
  apply imap_ext. intros j y _. cbn. f_equal. lia.
Qed.

(** ** One reply per command *)

Lemma replies_once_run {W A} (env : Env W) (p : gen A) (w : W) :
  replies_once p →
  length (replies (run env p w)) = 1%nat
  ∧ ∃ a, outcome (run env p w) = inr a.
Proof.
  revert w. induction p as [a|m k IH|c k IH|e]; intros w Hp; cbn in *.
  - done.
  - destruct k; try done. cbn. eauto.
  - destruct (env c w) as [x w']. cbn. by apply IH.
  - done.
Qed.

Section MoreCommands.
Context `{Runtime} {W : Type} (env : Env W).

(** The remove handler on an index it can convert. *)
Theorem del_subtracts_one (w w' : W) event index n ok message :
  let chat_id := chat_id_of event in
  isdigit index = true → int_ index = inr n →
  env (RemoveRandomTag chat_id (n - 1)) w = ((ok, message), w') →
  one_call (RemoveRandomTag chat_id (n - 1)) (ok, message) w' message
           (run env (PixivSearchPlugin.pixiv_random_del event index) w).
Proof.
  intros chat_id Hd Hn Hrm.
  unfold PixivSearchPlugin.pixiv_random_del, pixiv_random_del, one_call.
  rewrite run_forward, Hd, Hn. cbn. fold chat_id. by rewrite Hrm.
Qed.

(** The remove handler on an index that passes [isdigit] and that [int]
    refuses. *)
Theorem del_raises_when_int_fails (w : W) event index e :
  isdigit index = true → int_ index = inl e →
  let r := run env (PixivSearchPlugin.pixiv_random_del event index) w in
  outcome r = inl e ∧ replies r = [] ∧ trace r = [] ∧ final r = w.
Proof.
  intros Hd He.
  unfold PixivSearchPlugin.pixiv_random_del, pixiv_random_del.
  by rewrite run_forward, Hd, He.
Qed.

Lemma int_ascii_within_limit (s : str) :
  Forall (λ c, 48 ≤ c ≤ 57)%N s →
  (length s ≤ 640 ∨ int_max_str_digits = 0 ∨ length s ≤ int_max_str_digits)%nat →
  ∃ n, int_ s = inr n ∧ 0 ≤ n.
Proof.
  intros Hs Hlen. unfold int_.
  rewrite bool_decide_eq_false_2 by lia.
  destruct (decimal_digits_ascii s 0 Hs) as (n & -> & Hn); [done|].
  by exists n.
Qed.

(** X2: An index made of the digits 0 to 9 is converted exactly when it is
    within the interpreter's limit, that is, has at most 640 digits, or
    the limit is switched off, or it has no more digits than the limit.
    The remove handler then does not raise, replies once and asks the
    store once, for the position one below the number.  Beyond the limit
    it raises [ValueError] and neither replies nor asks the store. *)
Theorem del_accepts_ascii_digits (w : W) event index :
  index ≠ [] → Forall (λ c, 48 ≤ c ≤ 57)%N index →
  let r := run env (PixivSearchPlugin.pixiv_random_del event index) w in
  ((length index ≤ 640 ∨ int_max_str_digits = 0
    ∨ length index ≤ int_max_str_digits)%nat →
   ∃ n, 0 ≤ n ∧ int_ index = inr n ∧ outcome r = inr tt
        ∧ length (replies r) = 1%nat
        ∧ calls r = [RemoveRandomTag (chat_id_of event) (n - 1)])
  ∧ ((640 < length index ∧ 0 < int_max_str_digits < length index)%nat →
     int_ index = inl ValueError ∧ outcome r = inl ValueError
     ∧ replies r = [] ∧ calls r = []).
Proof.
  intros Hne Hdigits r. split.
  - intros Hlen.
    destruct (int_ascii_within_limit index Hdigits Hlen) as (n & Hn & Hpos).
    exists n. split; [done|]. split; [done|].
    destruct (env (RemoveRandomTag (chat_id_of event) (n - 1)) w)
      as [[ok message] w'] eqn:Hrm.
    destruct (del_subtracts_one w w' event index n ok message
                (isdigit_ascii index Hne Hdigits) Hn Hrm)
      as (Hr & Ht & _ & Ho).
    fold r in Hr, Ht, Ho. unfold calls. by rewrite Hr, Ht, Ho.
  - intros Hlen.
    assert (int_ index = inl ValueError) as Hn.
    { unfold int_. by rewrite bool_decide_eq_true_2. }
    destruct (del_raises_when_int_fails w event index ValueError
                (isdigit_ascii index Hne Hdigits) Hn)
      as (Ho & Hr & Ht & _).
    fold r in Ho, Hr, Ht. unfold calls. by rewrite Ho, Hr, Ht.
Qed.

(** Every command wrapper of [main.py] behaves as the handler method it
    forwards: the same replies, the same calls with the same answers, the
    same final world and the same outcome. *)
Theorem commands_forward_handlers (w : W) cmd event :
  run env (dispatch cmd event) w = run env (handler cmd event) w.
Proof. destruct cmd; apply run_forward. Qed.

Lemma handler_replies_once cmd event :
  (∀ index, cmd = PixivRandomDel index →
     isdigit index = true → ∃ n, int_ index = inr n) →
  replies_once (handler cmd event).
Proof.
  intros Hdel.
  destruct cmd as [tags|index|args| | | |]; cbn [handler];
    unfold pixiv_random_add, pixiv_random_del, pixiv_random_list,
      pixiv_random_suspend, pixiv_random_resume, pixiv_random_status,
      pixiv_random_force.
  - destruct (truthy (strip tags)); cbn; [|done].
    intros [[] msg]; cbn; [|done]. by intros [ok m].
  - destruct (isdigit index) eqn:Hd; cbn; [|done].
    destruct (Hdel index eq_refl Hd) as (n & ->). cbn.
    by intros [ok m].
  - cbn. intros tags. by destruct (bool_decide (tags ≠ [])).
  - cbn. intros [[] []]; cbn; try done.
    intros [[] m]; cbn; done.
  - cbn. intros [[] []]; cbn; try done.
    intros [[] m]; cbn; done.
  - cbn. done.
  - cbn. intros [[] s]; cbn; [|done]. by intros [].
Qed.

(** X6: Every random-search command yields exactly one reply and returns,
    with one exception: the remove command, given an index that passes
    [isdigit] and that [int] refuses, raises before it replies or calls
    anything. *)
Theorem every_command_replies_once (w : W) cmd event :
  let r := run env (dispatch cmd event) w in
  (outcome r = inr tt ∧ length (replies r) = 1%nat)
  ∨ (∃ index e, cmd = PixivRandomDel index
       ∧ isdigit index = true ∧ int_ index = inl e
       ∧ outcome r = inl e ∧ replies r = [] ∧ trace r = [] ∧ final r = w).
Proof.
  intros r. subst r. rewrite commands_forward_handlers.
  assert ((∀ index, cmd = PixivRandomDel index →
             isdigit index = true → ∃ n, int_ index = inr n) →
          outcome (run env (handler cmd event) w) = inr tt
          ∧ length (replies (run env (handler cmd event) w)) = 1%nat)
    as Hgood.
  { intros Hdel.
    destruct (replies_once_run env (handler cmd event) w
                (handler_replies_once cmd event Hdel))
      as (Hlen & [] & Ho).
    done. }
  destruct cmd as [tags|index|args| | | |];
    try (left; apply Hgood; by intros ? [=]).
  destruct (isdigit index) eqn:Hd.
  - destruct (int_ index) as [e|n] eqn:Hn.
    + right. exists index, e.
      pose proof (del_raises_when_int_fails w event index e Hd Hn) as Hr.
      unfold PixivSearchPlugin.pixiv_random_del in Hr.
      rewrite run_forward in Hr. cbn [handler].
      destruct Hr as (? & ? & ? & ?). done.
    + left. apply Hgood. intros ? [= <-] _. by exists n.
  - left. apply Hgood. intros ? [= <-] Hd'. congruence.
Qed.

(** X3: The number that the list command prints in front of a tag is the
    number the remove command takes for it: the reply of the list command
    has, after the header and the lines of the tags before it, the line of
    the tag at position [i] starting with [i + 1], and the remove command
    given that number asks the store to remove position [i]. *)
Theorem listed_number_addresses_tag (w w' : W) event args
        (tags : list TagEntry) i entry :
  let chat_id := chat_id_of event in
  let number := format_int (Z.of_nat i + 1) in
  env (GetRandomTags chat_id) w = (tags, w') →
  tags !! i = Some entry →
  (length number ≤ 640)%nat →
  replies (run env (PixivSearchPlugin.pixiv_random_list event args) w)
  = [(LIST_HEADER ++ concat (imap listing_line (tag <$> take i tags)))
     ++ (number ++ text ". " ++ tag entry ++ nl)
     ++ concat (imap (λ j, listing_line (S i + j))
                     (tag <$> drop (S i) tags))]
  ∧ ∀ w0, calls (run env (PixivSearchPlugin.pixiv_random_del event number) w0)
          = [RemoveRandomTag chat_id (Z.of_nat i)].
Proof.
  intros chat_id number Hq Hi Hlen. split.
  - destruct (list_renders env w w' event args tags Hq) as (Hr & _).
    rewrite Hr. destruct tags as [|e0 tags0] eqn:Htags; [done|].
    rewrite <- Htags in *. clear Htags e0 tags0.
    assert ((tag <$> tags) !! i = Some (tag entry)) as Hi'.
    { by rewrite list_lookup_fmap, Hi. }
    rewrite (concat_imap_middle listing_line _ i (tag entry) Hi').
    rewrite fmap_take, fmap_drop. unfold listing_line at 2. fold number.
    by rewrite <- !app_assoc.
  - intros w0.
    destruct (int_format_int (Z.of_nat i + 1)) as (Hd & Hn); [lia|done|].
    destruct (env (RemoveRandomTag chat_id (Z.of_nat i)) w0)
      as [[ok message] w1] eqn:Hrm.
    pose proof (del_subtracts_one w0 w1 event number (Z.of_nat i + 1)
                  ok message Hd Hn) as Hone.
    replace (Z.of_nat i + 1 - 1) with (Z.of_nat i) in Hone by lia.
    destruct (Hone Hrm) as (_ & Ht & _).
    unfold calls. by rewrite Ht.
Qed.

End MoreCommands.

(** * Further properties of main.py *)

(** ** The session and the end of the plugin *)

Section Lifecycle.
Import PluginMethods.

(** X7: [_get_http_session] gives an open session, and asked again it gives
    that session without creating another. *)
Theorem get_http_session_reuses_open_session (self : PixivSearchPlugin.t) :
  let '(self1, session1, created1) := _get_http_session self in
  let '(self2, session2, created2) := _get_http_session self1 in
  PixivSearchPlugin.closed session1 = false
  ∧ PixivSearchPlugin._http_session self1 = Some session1
  ∧ (created1 = false ↔ PixivSearchPlugin._http_session self = Some session1)
  ∧ self2 = self1 ∧ session2 = session1 ∧ created2 = false.
Proof.
  destruct self as [sub task [[[]]|] core]; cbn; repeat split; try done.
Qed.

(** X8: [terminate] closes the session that [_get_http_session] handed out,
    once: a second [terminate] closes, cancels and awaits nothing, and a
    session asked for after [terminate] is a new one. *)
Theorem terminate_closes_session_once (self : PixivSearchPlugin.t) :
  let opened := (_get_http_session self).1.1 in
  let first := PixivSearchPlugin.terminate opened in
  let second := PixivSearchPlugin.terminate first.1 in
  occurrences PixivSearchPlugin.HttpSessionClose first.2 = 1%nat
  ∧ PixivSearchPlugin._http_session first.1
    = Some {| PixivSearchPlugin.closed := true |}
  ∧ occurrences PixivSearchPlugin.HttpSessionClose second.2 = 0%nat
  ∧ occurrences PixivSearchPlugin.RefreshTaskCancel second.2 = 0%nat
  ∧ occurrences PixivSearchPlugin.RefreshTaskAwait second.2 = 0%nat
  ∧ (_get_http_session first.1).2 = true.
Proof.
  destruct self as [[sub|] [[[] cancel []]|] [[[]]|] core];
    vm_compute; repeat split.
Qed.

Lemma step_keeps_refresh_task (self : PixivSearchPlugin.t) (s : Step) :
  PixivSearchPlugin._refresh_task self = None →
  PixivSearchPlugin._refresh_task (step self s) = None
  ∧ PixivSearchPlugin.random_search_service (step self s)
    = PixivSearchPlugin.random_search_service self.
Proof.
  destruct self as [sub task sess core]. cbn. intros ->.
  destruct s; cbn.
  - by destruct sess as [[[]]|].
  - by destruct sub, sess as [[[]]|].
Qed.

(** X9: [__init__] does not keep the refresh task it creates and nothing else
    sets [_refresh_task]: however often the session is asked for and
    [terminate] is called afterwards, the plugin holds no refresh task, so
    that [terminate] never cancels or awaits one, and the two tasks of the
    random search service stay running. *)
Theorem refresh_task_is_never_cancelled (subscription_enabled : bool)
        (steps : list Step) :
  let self := foldl step (PixivSearchPlugin.__init__ subscription_enabled).1
                    steps in
  let acts := (PixivSearchPlugin.terminate self).2 in
  PixivSearchPlugin._refresh_task self = None
  ∧ occurrences PixivSearchPlugin.RefreshTaskCancel acts = 0%nat
  ∧ occurrences PixivSearchPlugin.RefreshTaskAwait acts = 0%nat
  ∧ RandomSearchService.tick_generator
      (PixivSearchPlugin.random_search_service self)
    = RandomSearchService.Running
  ∧ RandomSearchService.queue_processor
      (PixivSearchPlugin.random_search_service self)
    = RandomSearchService.Running.
Proof.
  intros self acts.
  assert (PixivSearchPlugin._refresh_task self = None
          ∧ PixivSearchPlugin.random_search_service self
            = PixivSearchPlugin.random_search_service
                (PixivSearchPlugin.__init__ subscription_enabled).1)
    as [Htask Hcore].
  { subst self acts. induction steps as [|s steps IH] using rev_ind.
    - by destruct subscription_enabled.
    - rewrite foldl_app. cbn [foldl]. destruct IH as [IH1 IH2].
      destruct (step_keeps_refresh_task _ s IH1) as [-> ->]. done. }
  split; [done|]. rewrite Hcore.
  assert (occurrences PixivSearchPlugin.RefreshTaskCancel acts = 0%nat
          ∧ occurrences PixivSearchPlugin.RefreshTaskAwait acts = 0%nat)
    as [-> ->].
  { subst acts. destruct self as [[sub|] task [[[]]|] core];
      cbn in Htask; subst task; vm_compute; done. }
  by destruct subscription_enabled.
Qed.

End Lifecycle.

(** ** Settings text *)

Section SettingsText.
Import PluginMethods.
Context `{Runtime} `{Casing}.

Lemma strip_without_blanks (s : str) :
  Forall (λ c, is_space c = false) s → strip s = s.
Proof.
  intros Hs. unfold strip.
  rewrite (lstrip_fixed s) by (by destruct Hs).
  rewrite (lstrip_fixed (rev s)), rev_involutive; [done|].
  apply Forall_rev in Hs. by destruct Hs.
Qed.

Lemma valid_settings_alphanumeric :
  Forall (Forall (λ c, 48 ≤ c)%N) valid_settings.
Proof. apply (bool_decide_unpack _). by vm_compute. Qed.

Lemma lower_keeps_blanks (c : N) :
  (c <? 128)%N = true → is_space c = true → (ascii_lower c < 48)%N.
Proof.
  unfold is_space, ascii_lower. intros ->.
  intros [[H1 H2]%andb_prop|[H1 H2]%andb_prop]%orb_prop;
    apply N.leb_le in H1, H2;
    (replace ((65 <=? c)%N && (c <=? 90)%N) with false
      by (symmetry; apply andb_false_iff; left; apply N.leb_gt; lia)); lia.
Qed.

(** An ASCII text that [lower] takes to one of the eight values has no
    blank in it, so [strip] leaves it as it is. *)
Lemma valid_setting_is_stripped (s : str) :
  isascii s = true → lower s ∈ valid_settings → strip s = s.
Proof.
  intros Hascii Hvalid. apply strip_without_blanks.
  unfold lower in Hvalid. rewrite Hascii in Hvalid.
  pose proof valid_settings_alphanumeric as Hall.
  rewrite Forall_forall in Hall. specialize (Hall _ Hvalid).
  clear Hvalid. unfold isascii in Hascii.
  induction s as [|c s IH]; [done|]. cbn in *.
  apply andb_prop in Hascii as [Hc Hs]. inversion_clear Hall as [|?? H48 Hrest].
  constructor; [|by apply IH].
  destruct (is_space c) eqn:Hsp; [|done].
  pose proof (lower_keeps_blanks c Hc Hsp). lia.
Qed.

End SettingsText.

(** ** The commands the plugin handles itself *)

Section PluginCommands.
Import PluginMethods.
Context {W : Type} (env : Surroundings W).

(** X13: [pixiv_config] passes both arguments to the configuration manager and
    yields what it gave back, but never an empty reply. *)
Theorem config_reply_is_never_empty (w : W) (event : AstrMessageEvent)
        (arg1 arg2 : str) :
  let r := exec env (pixiv_config event arg1 arg2) w in
  ops r = [HandleConfigCommand arg1 arg2] ∧ ending r = inr tt
  ∧ (results r = [] ∨ ∃ m, m ≠ [] ∧ results r = [m]).
Proof.
  unfold pixiv_config, ops, handle_config_command. cbn.
  destruct (env (HandleConfigCommand arg1 arg2) w) as [[[|c m]|] w']; cbn;
    repeat split; eauto.
  right. by exists (c :: m).
Qed.

(** *** pixiv_trending_tags *)

(** X10: The trending command never replies and never asks Pixiv: after its
    log line it raises the [AttributeError] for [_authenticate], which is
    an [Exception] and is raised outside of the [try], so that it reaches
    the caller of the command. *)
Theorem trending_raises_before_request (w : W) (event : AstrMessageEvent) :
  let r := exec env (pixiv_trending_tags event) w in
  let e := AttributeError (text "_authenticate") in
  ending r = inl e ∧ is_Exception e = true
  ∧ results r = []
  ∧ ops r = [LoggerInfo (text "Pixiv 插件：正在获取插画趋势标签...")].
Proof.
  unfold pixiv_trending_tags, ops, logger_info, _authenticate. cbn.
  by destruct (env (LoggerInfo _) w) as [[] w'].
Qed.

(** *** pixiv_llm_search *)

Lemma llm_search_run (w : W) (llm_tools : list (option str))
      (query search_type : str) :
  let r := exec env (pixiv_llm_search llm_tools query search_type) w in
  let e := AttributeError (text "_authenticate") in
  let error_msg := text "LLM搜索时发生错误: " ++ str_of e in
  results r = [] ∧ ending r = inr error_msg
  ∧ performed r = [Did (LoggerError error_msg) tt]
  ∧ world r = (env (LoggerError error_msg) w).2.
Proof.
  unfold pixiv_llm_search, logger_error, _authenticate. cbn.
  by destruct (env (LoggerError _) w) as [[] w'].
Qed.

(** X14: The LLM search returns a text and never yields.  It raises only what
    is not an [Exception]; the [Exception] of authentication, the
    [AttributeError] for [_authenticate], is logged as the last call and
    returned as the text of an error. *)
Theorem llm_search_contains_failures (w : W) (llm_tools : list (option str))
        (query search_type : str) :
  let r := exec env (pixiv_llm_search llm_tools query search_type) w in
  let e := AttributeError (text "_authenticate") in
  results r = []
  ∧ (∀ e', ending r = inl e' → is_Exception e' = false)
  ∧ is_Exception e = true
  ∧ ending r = inr (text "LLM搜索时发生错误: " ++ str_of e)
  ∧ last (ops r)
    = Some (LoggerError (text "LLM搜索时发生错误: " ++ str_of e)).
Proof.
  intros r e.
  destruct (llm_search_run w llm_tools query search_type)
    as (Hresults & Hending & Hperformed & _).
  fold r in Hresults, Hending, Hperformed. unfold ops.
  rewrite Hresults, Hending, Hperformed. repeat split. by intros e' [=].
Qed.

(** X15: The LLM search never gets as far as its tools: it calls no tool and
    builds no context, its only call is the one log entry of the error,
    and the run is the same whatever [llm_tools] holds and whatever query
    and search type are given. *)
Theorem llm_search_never_calls_a_tool (w : W) (llm_tools : list (option str))
        (query search_type : str) :
  let r := exec env (pixiv_llm_search llm_tools query search_type) w in
  tool_calls r = [] ∧ (MockContext ∉ ops r) ∧ length (ops r) = 1%nat
  ∧ ∀ llm_tools' query' search_type',
      exec env (pixiv_llm_search llm_tools' query' search_type') w = r.
Proof.
  intros r.
  destruct (llm_search_run w llm_tools query search_type)
    as (_ & _ & Hperformed & _).
  fold r in Hperformed. unfold tool_calls, ops. rewrite Hperformed.
  split; [done|]. split; [by intros [=]%list_elem_of_singleton|].
  split; [done|]. intros llm_tools' query' search_type'. subst r.
  unfold pixiv_llm_search, _authenticate. reflexivity.
Qed.

(** *** pixiv_ai_show_settings *)

Context `{Runtime} `{Casing}.

(** A value that is not one of the eight is answered with the list of
    them; nothing is called. *)
Lemma ai_settings_invalid_value (w : W) (event : AstrMessageEvent)
      (setting : str) :
  strip setting ≠ [] → lower (strip setting) ≠ text "help" →
  lower setting ∉ valid_settings →
  let r := exec env (pixiv_ai_show_settings event setting) w in
  results r = [text "无效的设置值: " ++ setting ++ nl
                 ++ text "可用值: " ++ join (text ", ") valid_settings]
  ∧ performed r = [] ∧ world r = w ∧ ending r = inr tt.
Proof.
  intros Hne Hnohelp Hinvalid. unfold pixiv_ai_show_settings.
  rewrite (bool_decide_eq_false_2 _ Hnohelp).
  rewrite (bool_decide_eq_false_2 _ Hinvalid).
  destruct (strip setting); done.
Qed.

(** A request for help is answered with the help text. *)
Lemma ai_settings_help (w : W) (event : AstrMessageEvent) (setting : str) :
  strip setting = [] ∨ lower (strip setting) = text "help" →
  let r := exec env (pixiv_ai_show_settings event setting) w in
  Forall (λ o, is_help_lookup o = true) (ops r)
  ∧ length (results r) = 1%nat ∧ ending r = inr tt.
Proof.
  intros Hhelp. unfold pixiv_ai_show_settings, ops, get_help_message.
  assert (negb (truthy (strip setting))
          || bool_decide (lower (strip setting) = text "help") = true)
    as ->.
  { destruct Hhelp as [->|Hh]; [done|].
    by rewrite (bool_decide_eq_true_2 _ Hh), orb_true_r. }
  cbn. destruct (env _ w) as [x w']. cbn.
  repeat split. by repeat constructor.
Qed.

(** X16: The argument is stripped for the test for a help request, but not for
    the test against the eight values: ASCII text with a blank before or
    after it is never accepted as a value.  The command then neither
    authenticates nor changes a setting, and unless the stripped text is
    empty or [help], it answers that the value is invalid. *)
Theorem ai_settings_rejects_padded_value (w : W) (event : AstrMessageEvent)
        (setting : str) :
  isascii setting = true → strip setting ≠ setting →
  let r := exec env (pixiv_ai_show_settings event setting) w in
  Forall (λ o, is_help_lookup o = true) (ops r)
  ∧ length (results r) = 1%nat ∧ ending r = inr tt
  ∧ (strip setting ≠ [] → lower (strip setting) ≠ text "help" →
     results r = [text "无效的设置值: " ++ setting ++ nl
                    ++ text "可用值: " ++ join (text ", ") valid_settings]
     ∧ performed r = [] ∧ world r = w).
Proof.
  intros Hascii Hpadded r.
  assert (lower setting ∉ valid_settings) as Hinvalid.
  { intros Hvalid. by apply Hpadded, valid_setting_is_stripped. }
  assert (strip setting ≠ [] → lower (strip setting) ≠ text "help" →
          results r
          = [text "无效的设置值: " ++ setting ++ nl
               ++ text "可用值: " ++ join (text ", ") valid_settings]
          ∧ performed r = [] ∧ world r = w ∧ ending r = inr tt) as Hbad.
  { intros Hne Hnohelp. by apply ai_settings_invalid_value. }
  destruct (decide (strip setting = [])) as [Hempty|Hne].
  - destruct (ai_settings_help w event setting (or_introl Hempty))
      as (Hops & Hlen & Hend).
    repeat split; try done.
  - destruct (decide (lower (strip setting) = text "help")) as [Hh|Hnohelp].
    + destruct (ai_settings_help w event setting (or_intror Hh))
        as (Hops & Hlen & Hend).
      repeat split; try done.
    + destruct (Hbad Hne Hnohelp) as (Hr & Hp & Hw & He).
      unfold ops. rewrite Hr, Hp, He. repeat split; done.
Qed.

(** X17: One of the eight values, in either case of the letters, is never
    carried out: the command raises the [AttributeError] for
    [_authenticate] without a reply and without a call, so that nothing is
    sent to Pixiv, logged or changed. *)
Theorem ai_settings_valid_value_raises (w : W) (event : AstrMessageEvent)
        (setting : str) :
  strip setting ≠ [] → lower (strip setting) ≠ text "help" →
  lower setting ∈ valid_settings →
  let r := exec env (pixiv_ai_show_settings event setting) w in
  ending r = inl (AttributeError (text "_authenticate"))
  ∧ results r = [] ∧ performed r = [] ∧ world r = w.
Proof.
  intros Hne Hnohelp Hvalid. unfold pixiv_ai_show_settings, _authenticate.
  rewrite (bool_decide_eq_false_2 _ Hnohelp).
  rewrite (bool_decide_eq_true_2 _ Hvalid).
  destruct (strip setting); done.
Qed.

(** X18: Whatever its argument, the settings command changes no setting: the
    only call it ever makes is the look-up of its help text.  It either
    gives one reply and returns (help, or the answer that the value is
    invalid), or, for one of the eight values, raises the
    [AttributeError] for [_authenticate] without a reply. *)
Theorem ai_settings_never_changes_a_setting (w : W)
        (event : AstrMessageEvent) (setting : str) :
  let r := exec env (pixiv_ai_show_settings event setting) w in
  Forall (λ o, is_help_lookup o = true) (ops r)
  ∧ ((length (results r) = 1%nat ∧ ending r = inr tt)
     ∨ (lower setting ∈ valid_settings ∧ results r = [] ∧ ops r = []
        ∧ ending r = inl (AttributeError (text "_authenticate")))).
Proof.
  intros r.
  destruct (decide (strip setting = [])) as [Hempty|Hne].
  { destruct (ai_settings_help w event setting (or_introl Hempty))
      as (Hops & Hlen & Hend).
    split; [done|]. by left. }
  destruct (decide (lower (strip setting) = text "help")) as [Hh|Hnohelp].
  { destruct (ai_settings_help w event setting (or_intror Hh))
      as (Hops & Hlen & Hend).
    split; [done|]. by left. }
  destruct (decide (lower setting ∈ valid_settings)) as [Hvalid|Hinvalid].
  - subst r. unfold pixiv_ai_show_settings, _authenticate, ops.
    rewrite (bool_decide_eq_false_2 _ Hnohelp).
    rewrite (bool_decide_eq_true_2 _ Hvalid).
    destruct (strip setting); [done|]. cbn.
    split; [constructor|]. by right.
  - destruct (ai_settings_invalid_value w event setting Hne Hnohelp Hinvalid)
      as (Hres & Hperf & _ & Hend).
    fold r in Hend, Hres, Hperf. unfold ops. rewrite Hperf.
    split; [constructor|]. left. by rewrite Hres, Hend.
Qed.

End PluginCommands.

(** * Further worked instances *)

Section MoreInstances.
Import Example Scripted PluginMethods.
Local Existing Instance latin1.
Local Existing Instance ascii_only.

(** C1: an index greater than the length of the list that is not answered
    with the store's failure.  The limit of the interpreter being the
    default of 4300 digits, the index 1 followed by 4300 zeros is a digit
    string and denotes a number beyond every stored list, [g1]'s two tags
    among them; [int] refuses it, and the remove handler raises
    [ValueError] whatever its collaborators are: it gives no reply and
    does not get to [remove_random_tag]. *)
Theorem del_overlong_index_raises :
  let index := text "1" ++ replicate 4300 48%N in
  isdigit index = true
  ∧ decimal_digits 0 index = Some (10 ^ 4300)
  ∧ Z.of_nat (length (stored_tags g1 pets)) < 10 ^ 4300
  ∧ int_ index = inl ValueError
  ∧ ∀ W (env : Env W) (w : W) event,
      let r := run env (PixivSearchPlugin.pixiv_random_del event index) w in
      outcome r = inl ValueError ∧ replies r = [] ∧ trace r = []
      ∧ final r = w.
Proof.
  intros index.
  assert (isdigit index = true) as Hd by (by vm_compute).
  assert (int_ index = inl ValueError) as Hn by (by vm_compute).
  split; [exact Hd|]. split; [by vm_compute|]. split; [by vm_compute|].
  split; [exact Hn|]. intros W env w event.
  exact (del_raises_when_int_fails env w event index ValueError Hd Hn).
Qed.

(** An index of a thousand nines is within the limit of 4300 digits. *)
Lemma del_accepts_ascii_digits_witness :
  ∃ n, 0 ≤ n ∧ int_ (replicate 1000 57%N) = inr n
       ∧ outcome (run env (PixivSearchPlugin.pixiv_random_del
                             alice (replicate 1000 57%N)) pets) = inr tt
       ∧ length (replies (run env (PixivSearchPlugin.pixiv_random_del
                                     alice (replicate 1000 57%N)) pets))
         = 1%nat
       ∧ calls (run env (PixivSearchPlugin.pixiv_random_del
                           alice (replicate 1000 57%N)) pets)
         = [RemoveRandomTag (chat_id_of alice) (n - 1)].
Proof.
  refine (proj1 (del_accepts_ascii_digits
                   env pets alice (replicate 1000 57%N) _ _) _).
  - by vm_compute.
  - apply (bool_decide_unpack _). vm_compute. exact I.
  - right. right. apply Nat.leb_le. vm_compute. reflexivity.
Defined.

(** [dog] is listed as number 2, and "2" given to the remove command
    addresses position 1. *)
Lemma listed_number_addresses_tag_witness :
  replies (run env (PixivSearchPlugin.pixiv_random_list alice []) pets)
  = [LIST_HEADER ++ text "1. cat" ++ nl ++ text "2. dog" ++ nl]
  ∧ ∀ w0, calls (run env (PixivSearchPlugin.pixiv_random_del alice (text "2"))
                     w0)
          = [RemoveRandomTag g1 1].
Proof.
  destruct (listed_number_addresses_tag
              env pets pets alice []
              [{| tag := text "cat" |}; {| tag := text "dog" |}] 1
              {| tag := text "dog" |})
    as [Hlist Hdel].
  - by vm_compute.
  - reflexivity.
  - vm_compute. lia.
  - split; [|exact Hdel].
    etransitivity; [exact Hlist|]. vm_compute. reflexivity.
Defined.

(** Suspending the running [g1]: the store is asked, then the core told. *)
Lemma suspend_goes_through_witness :
  replies (run env (PixivSearchPlugin.pixiv_random_suspend alice) pets)
  = [text "suspended"]
  ∧ calls (run env (PixivSearchPlugin.pixiv_random_suspend alice) pets)
    = [GetRandomSearchStatus g1; SuspendRandomSearch g1;
       SuspendGroupSearch g1].
Proof.
  apply (suspend_goes_through
           env pets pets (env (SuspendRandomSearch g1) pets).2 alice
           true (text "suspended")); by vm_compute.
Defined.

(** Resuming the suspended [g1]. *)
Lemma resume_goes_through_witness :
  replies (run env (PixivSearchPlugin.pixiv_random_resume alice)
               pets_suspended)
  = [text "resumed"]
  ∧ calls (run env (PixivSearchPlugin.pixiv_random_resume alice)
               pets_suspended)
    = [GetRandomSearchStatus g1; ResumeRandomSearch g1;
       ResumeGroupSearch g1].
Proof.
  apply (resume_goes_through
           env pets_suspended pets_suspended
           (env (ResumeRandomSearch g1) pets_suspended).2 alice
           true (text "resumed")); by vm_compute.
Defined.

(** [ true], with a blank in front, is answered as an invalid value. *)
Lemma ai_settings_rejects_padded_value_witness :
  results (exec (surroundings smooth)
                (pixiv_ai_show_settings alice (text " true")) 0%nat)
  = [text "无效的设置值: " ++ text " true" ++ nl
       ++ text "可用值: " ++ join (text ", ") valid_settings]
  ∧ performed (exec (surroundings smooth)
                    (pixiv_ai_show_settings alice (text " true")) 0%nat)
    = [].
Proof.
  destruct (ai_settings_rejects_padded_value
              (surroundings smooth) 0%nat alice (text " true"))
    as (_ & _ & _ & Hinvalid); [by vm_compute|by vm_compute|].
  destruct Hinvalid as (Hresults & Hperformed & _);
    [by vm_compute|by vm_compute|].
  exact (conj Hresults Hperformed).
Defined.

(** [ON] is one of the eight values: the command raises and replies
    nothing. *)
Lemma ai_settings_valid_value_raises_witness :
  ending (exec (surroundings smooth)
               (pixiv_ai_show_settings alice (text "ON")) 0%nat)
  = inl (AttributeError (text "_authenticate"))
  ∧ results (exec (surroundings smooth)
                  (pixiv_ai_show_settings alice (text "ON")) 0%nat)
    = [].
Proof.
  destruct (ai_settings_valid_value_raises
              (surroundings smooth) 0%nat alice (text "ON"))
    as (Hending & Hresults & _).
  - by vm_compute.
  - by vm_compute.
  - apply (bool_decide_unpack _). by vm_compute.
  - exact (conj Hending Hresults).
Defined.

End MoreInstances.
